(** * Sycon STM-100 serial driver (stm100.py): frame codec and session

    A shallow embedding of the driver class [STM100] of [stm100.py] and of
    the part of Python and pyvisa it runs on, followed by the properties of
    the frame codec ([_send], [_read]), of [query] and of the typed
    accessors built on it. *)

From Stdlib.Strings Require Import String Ascii Byte.
From Stdlib Require Import List Bool NArith ZArith QArith Lia Permutation.
Import ListNotations.

Set Implicit Arguments.

(** ** Python values *)

(** A Python [str] is a sequence of code points; [ord] of a character is the
    code point itself.  A [bytes] object is a [list byte]. *)
Definition str := list N.

(** A literal of the source, written as a Rocq string of ASCII characters. *)
Definition lit (s : string) : str := map N_of_ascii (list_ascii_of_string s).

(** The exceptions the driver raises or lets through.  Those raised with a
    message in the source carry it.  [UnicodeDecodeError] is a subclass of
    [ValueError] in Python, see [isinstance_ValueError]. *)
Inductive exn : Type :=
| ValueError (why : str)
| UnicodeDecodeError
| AssertionError (why : str)
| IndexError
| TypeError
| AttributeError
| OverflowError
| RuntimeError (why : str)
| VisaIOError.

Definition isinstance_ValueError (e : exn) : bool :=
  match e with
  | ValueError _ | UnicodeDecodeError => true
  | _ => false
  end.

Inductive result (A : Type) : Type :=
| Ret (a : A)
| Raise (e : exn).
Arguments Ret {A} a.
Arguments Raise {A} e.

(** Python numbers as the setters receive them and as [float] returns them:
    a finite value (an [int] or a finite [float], both rationals), an
    infinity or [nan]. *)
Inductive number : Type :=
| Fin (q : Q)
| Inf
| NegInf
| NaN.

Definition nan : number := NaN.

(** ** Builtins used by the driver *)

Module Py.

(** [bytes(l)] for a list of non-negative ints: every element must be in
    [range(0, 256)]. *)
Fixpoint bytes (l : list N) : result (list byte) :=
  match l with
  | [] => Ret []
  | n :: l' =>
      match Byte.of_N n with
      | None => Raise (ValueError (lit "bytes must be in range(0, 256)"))
      | Some b =>
          match bytes l' with
          | Ret bs => Ret (b :: bs)
          | Raise e => Raise e
          end
      end
  end.

(** [ord(b)] for a bytes object: it must hold exactly one byte. *)
Definition ord_bytes (b : list byte) : result N :=
  match b with
  | [x] => Ret (Byte.to_N x)
  | _ => Raise TypeError
  end.

Definition in_range (lo hi n : N) : bool := ((lo <=? n) && (n <=? hi))%N.

(** A continuation byte [10xxxxxx] restricted to [lo..hi]. *)
Definition cont (lo hi : N) (x : byte) : option N :=
  let n := Byte.to_N x in
  if in_range lo hi n then Some (n - 0x80)%N else None.

(** [b.decode()]: strict UTF-8.  Well-formed sequences are those of the
    Unicode standard (no overlong forms, no surrogates, nothing above
    U+10FFFF); anything else raises [UnicodeDecodeError], here [None]. *)
Fixpoint utf8 (b : list byte) : option str :=
  match b with
  | [] => Some []
  | x0 :: r0 =>
      let n0 := Byte.to_N x0 in
      if (n0 <? 0x80)%N then option_map (cons n0) (utf8 r0)
      else if in_range 0xC2 0xDF n0 then
        match r0 with
        | x1 :: r1 =>
            match cont 0x80 0xBF x1 with
            | Some c1 =>
                option_map (cons ((n0 - 0xC0) * 64 + c1)%N) (utf8 r1)
            | None => None
            end
        | _ => None
        end
      else if in_range 0xE0 0xEF n0 then
        match r0 with
        | x1 :: x2 :: r2 =>
            let lo := if (n0 =? 0xE0)%N then 0xA0%N else 0x80%N in
            let hi := if (n0 =? 0xED)%N then 0x9F%N else 0xBF%N in
            match cont lo hi x1, cont 0x80 0xBF x2 with
            | Some c1, Some c2 =>
                option_map (cons (((n0 - 0xE0) * 64 + c1) * 64 + c2)%N)
                           (utf8 r2)
            | _, _ => None
            end
        | _ => None
        end
      else if in_range 0xF0 0xF4 n0 then
        match r0 with
        | x1 :: x2 :: x3 :: r3 =>
            let lo := if (n0 =? 0xF0)%N then 0x90%N else 0x80%N in
            let hi := if (n0 =? 0xF4)%N then 0x8F%N else 0xBF%N in
            match cont lo hi x1, cont 0x80 0xBF x2, cont 0x80 0xBF x3 with
            | Some c1, Some c2, Some c3 =>
                option_map
                  (cons ((((n0 - 0xF0) * 64 + c1) * 64 + c2) * 64 + c3)%N)
                  (utf8 r3)
            | _, _, _ => None
            end
        | _ => None
        end
      else None
  end.

Definition decode (b : list byte) : result str :=
  match utf8 b with
  | Some s => Ret s
  | None => Raise UnicodeDecodeError
  end.

(** [s[0]]: a string of one character, or [IndexError]. *)
Definition item0 (s : str) : result str :=
  match s with
  | c :: _ => Ret [c]
  | [] => Raise IndexError
  end.

(** [s[1:]] *)
Definition from1 (s : str) : str := tl s.

(** [a == b] on strings. *)
Definition str_eq (a b : str) : bool :=
  if list_eq_dec N.eq_dec a b then true else false.

(** [repr(b)] of a bytes object, as an f-string prints it: [b'...'], in
    double quotes when the bytes hold a single quote and no double quote;
    the quote and the backslash are escaped, tab, newline and carriage
    return are written as escapes, other bytes outside the printable ASCII
    range as [\xNN]. *)
Definition hexdigit (n : N) : N :=
  nth (N.to_nat n) (lit "0123456789abcdef") 48%N.

Definition repr_byte (quote : N) (x : byte) : str :=
  let n := Byte.to_N x in
  if (n =? quote)%N || (n =? 92)%N then [92; n]%N
  else if (n =? 9)%N then [92; 116]%N
  else if (n =? 10)%N then [92; 110]%N
  else if (n =? 13)%N then [92; 114]%N
  else if (n <? 32)%N || (127 <=? n)%N
       then [92; 120; hexdigit (n / 16); hexdigit (n mod 16)]%N
       else [n].

Definition repr_bytes (b : list byte) : str :=
  let has c := existsb (fun x => (Byte.to_N x =? c)%N) b in
  let quote := if has 39%N && negb (has 34%N) then 34%N else 39%N in
  [98%N; quote] ++ flat_map (repr_byte quote) b ++ [quote].

(** [sub in s] on strings: [sub] occurs in [s] as a substring. *)
Fixpoint startswith (s pre : str) : bool :=
  match pre, s with
  | [], _ => true
  | p :: pre', c :: s' => (p =? c)%N && startswith s' pre'
  | _ :: _, [] => false
  end.

Fixpoint contains (s sub : str) : bool :=
  startswith s sub ||
  match s with
  | [] => false
  | _ :: s' => contains s' sub
  end.

(** [s.split(sep)] for a separator of one character. *)
Fixpoint split (sep : N) (s : str) : list str :=
  match s with
  | [] => [[]]
  | c :: s' =>
      if (c =? sep)%N then [] :: split sep s'
      else match split sep s' with
           | w :: ws => (c :: w) :: ws
           | [] => [[c]]
           end
  end.

(** [a, b = l] *)
Definition unpack2 (l : list str) : result (str * str) :=
  match l with
  | [a; b] => Ret (a, b)
  | [] =>
      Raise (ValueError (lit "not enough values to unpack (expected 2, got 0)"))
  | [_] =>
      Raise (ValueError (lit "not enough values to unpack (expected 2, got 1)"))
  | _ => Raise (ValueError (lit "too many values to unpack (expected 2)"))
  end.

Definition isascii (s : str) : bool := forallb (fun c => (c <? 128)%N) s.
Definition isdigit (c : N) : bool := in_range 48 57 c.
Definition isspace (c : N) : bool := in_range 9 13 c || (c =? 32)%N.

Fixpoint lstrip (s : str) : str :=
  match s with
  | c :: s' => if isspace c then lstrip s' else s
  | [] => []
  end.

Definition strip (s : str) : str := rev (lstrip (rev (lstrip s))).

(** Decimal digits, with single underscores allowed between two digits;
    [after_digit] says that the previous character was a digit. *)
Fixpoint digits (acc : Z) (after_digit : bool) (s : str) : option Z :=
  match s with
  | [] => if after_digit then Some acc else None
  | c :: s' =>
      if isdigit c then digits (10 * acc + Z.of_N (c - 48)) true s'
      else if (c =? 95)%N && after_digit then digits acc false s'
      else None
  end.

(** [repr(s)] of a string of ASCII characters, with the escapes and the
    choice of quotes of [repr_bytes]. *)
Definition repr_char (quote : N) (n : N) : str :=
  if (n =? quote)%N || (n =? 92)%N then [92; n]%N
  else if (n =? 9)%N then [92; 116]%N
  else if (n =? 10)%N then [92; 110]%N
  else if (n =? 13)%N then [92; 114]%N
  else if (n <? 32)%N || (127 <=? n)%N
       then [92; 120; hexdigit (n / 16); hexdigit (n mod 16)]%N
       else [n].

Definition repr_ascii (s : str) : str :=
  let has c := existsb (fun x => (x =? c)%N) s in
  let quote := if has 39%N && negb (has 34%N) then 34%N else 39%N in
  [quote] ++ flat_map (repr_char quote) s ++ [quote].

(** [int(s)] on ASCII text: surrounding white space, an optional sign,
    decimal digits.  The message of the error shows at most 200 characters
    of [repr(s)].  (The interpreter's limit of 4300 digits is out of reach
    of a reply of at most 255 bytes.) *)
Definition int_ascii (s : str) : result Z :=
  let t := strip s in
  let r := match t with
           | c :: t' =>
               if (c =? 43)%N then digits 0 false t'
               else if (c =? 45)%N then option_map Z.opp (digits 0 false t')
               else digits 0 false t
           | [] => None
           end in
  match r with
  | Some z => Ret z
  | None =>
      Raise (ValueError (lit "invalid literal for int() with base 10: " ++
                         firstn 200 (repr_ascii s)))
  end.

(** [int(x)] for a number: truncation towards zero. *)
Definition int_number (x : number) : result Z :=
  match x with
  | Fin q => Ret (Z.quot (Qnum q) (Zpos (Qden q)))
  | Inf | NegInf => Raise OverflowError
  | NaN => Raise (ValueError (lit "cannot convert float NaN to integer"))
  end.

(** [x >= y] and [x <= y] of a number and an int; every comparison with
    [nan] is false. *)
Definition ge (x : number) (y : Z) : bool :=
  match x with
  | Fin q => Qle_bool (inject_Z y) q
  | Inf => true
  | NegInf | NaN => false
  end.

Definition le (x : number) (y : Z) : bool :=
  match x with
  | Fin q => Qle_bool q (inject_Z y)
  | NegInf => true
  | Inf | NaN => false
  end.

(** [f"{n:d}"]: the decimal digits of [n], most significant first. *)
Fixpoint dec (fuel : nat) (n : N) (acc : str) : str :=
  match fuel with
  | O => acc
  | S fuel' =>
      let acc' := (48 + n mod 10)%N :: acc in
      if (n / 10 =? 0)%N then acc' else dec fuel' (n / 10)%N acc'
  end.

Definition format_d (z : Z) : str :=
  match z with
  | Z0 => dec 1 0 []
  | Zpos p => dec (S (N.size_nat (Npos p))) (Npos p) []
  | Zneg p => 45%N :: dec (S (N.size_nat (Npos p))) (Npos p) []
  end.

(** [range(a, b)] *)
Definition range (a b : nat) : list Z := map Z.of_nat (seq a (b - a)).

End Py.

(** ** The serial resource (pyvisa) *)

(** What the session sees of [self.inst]: [rx] holds the bytes the
    instrument delivers, in order, and [tx] every buffer handed to
    [write_raw], oldest first. *)
Record Resource : Type := mkResource {
  rx : list byte;
  tx : list (list byte)
}.

(** Entries of the [logging] logger of the session. *)
Inductive record : Type :=
| debug (text : str)
| error (text : str).

(** A saved film: the dict built by [query_films], in insertion order. *)
Definition film := list (string * number).

(** The attributes of an [STM100] object ([rm] only matters to [close]). *)
Record STM100 : Type := mkSTM100 {
  inst : Resource;
  log : list record;
  statuscode : option str;
  _films : option (list film)
}.

(** ** Methods as state transformers that may raise *)

Definition M (A : Type) : Type := STM100 -> result A * STM100.

Definition ret {A} (a : A) : M A := fun self => (Ret a, self).
Definition raise {A} (e : exn) : M A := fun self => (Raise e, self).
Definition bind {A B} (m : M A) (k : A -> M B) : M B :=
  fun self =>
    match m self with
    | (Ret a, self') => k a self'
    | (Raise e, self') => (Raise e, self')
    end.
Definition lift {A} (r : result A) : M A := fun self => (r, self).

Notation "x <- m ;; k" := (bind m (fun x => k))
  (at level 61, m at next level, right associativity).
Notation "m ;;; k" := (bind m (fun _ => k))
  (at level 61, right associativity).

Definition set_inst (i : Resource) (self : STM100) : STM100 :=
  mkSTM100 i (log self) (statuscode self) (_films self).
Definition set_log (l : list record) (self : STM100) : STM100 :=
  mkSTM100 (inst self) l (statuscode self) (_films self).
Definition set_statuscode (c : option str) (self : STM100) : STM100 :=
  mkSTM100 (inst self) (log self) c (_films self).
Definition set_films (f : option (list film)) (self : STM100) : STM100 :=
  mkSTM100 (inst self) (log self) (statuscode self) f.

Module Visa.

(** [inst.read_bytes(count)]: exactly [count] bytes, or a timeout
    ([VisaIOError]) when the instrument delivers fewer; the bytes that did
    arrive are consumed by the failed read. *)
Definition read_bytes (count : N) : M (list byte) := fun self =>
  let i := inst self in
  let n := N.to_nat count in
  if (n <=? length (rx i))%nat
  then (Ret (firstn n (rx i)),
        set_inst (mkResource (skipn n (rx i)) (tx i)) self)
  else (Raise VisaIOError, set_inst (mkResource [] (tx i)) self).

(** [inst.write_raw(message)]: returns the number of bytes written. *)
Definition write_raw (message : list byte) : M N := fun self =>
  let i := inst self in
  (Ret (N.of_nat (length message)),
   set_inst (mkResource (rx i) (tx i ++ [message])) self).

(** [inst.flush(BufferOperation.discard_read_buffer)] *)
Definition flush_discard_read_buffer : M unit := fun self =>
  let i := inst self in
  (Ret tt, set_inst (mkResource [] (tx i)) self).

End Visa.

Definition log_debug (text : str) : M unit := fun self =>
  (Ret tt, set_log (log self ++ [debug text]) self).
Definition log_error (text : str) : M unit := fun self =>
  (Ret tt, set_log (log self ++ [error text]) self).

(** ** Frame codec *)

(** [sum(ord(c) for c in msg) % 256] *)
Definition _calc_checksum (msg : str) : N :=
  (fold_left N.add msg 0 mod 256)%N.

Definition len (msg : str) : N := N.of_nat (length msg).

Definition _send (msg : str) : M N :=
  if (10 <? len msg)%N
  then raise (ValueError (lit "maximum message length is 10!"))
  else
    let chksum := _calc_checksum msg in
    cmd <- lift (Py.bytes ([2; len msg] ++ msg ++ [chksum])%N) ;;
    log_debug (lit "Send command: " ++ msg ++
               lit " (" ++ Py.repr_bytes cmd ++ lit ")") ;;;
    Visa.write_raw cmd.

Definition _read : M (str * str) :=
  b <- Visa.read_bytes 1 ;;
  s <- lift (Py.decode b) ;;
  if Py.str_eq s [2%N] then
    b <- Visa.read_bytes 1 ;;
    msgsize <- lift (Py.ord_bytes b) ;;
    b <- Visa.read_bytes msgsize ;;
    msg <- lift (Py.decode b) ;;
    b <- Visa.read_bytes 1 ;;
    chksum <- lift (Py.ord_bytes b) ;;
    let msg_ok := (chksum =? _calc_checksum msg)%N in
    (if negb msg_ok then log_error (lit "Checksum mismatch") else ret tt) ;;;
    c <- lift (Py.item0 msg) ;;
    ret (c, Py.from1 msg)
  else
    let error_msg := lit "Received message without start byte" in
    log_error error_msg ;;;
    Visa.flush_discard_read_buffer ;;;
    raise (RuntimeError error_msg).

(** ** Session *)

Definition query (msg : str) : M str :=
  _send msg ;;;
  r <- _read ;;
  let '(ret_, ans) := r in
  (fun self => (Ret tt, set_statuscode (Some ret_) self)) ;;;
  ret ans.

(** A session as [__init__] leaves it, on a given resource. *)
Definition init (i : Resource) : STM100 := mkSTM100 i [] None None.

Definition on_wire (bs : list byte) : STM100 := init (mkResource bs []).

(** ** Typed accessors *)

Section Accessors.

(** Two builtins are taken as given: [float(s)], whose values are not
    modelled beyond [number] and where [None] stands for the [ValueError]
    of text that is no number, and [int(s)] on text that is not ASCII
    (Unicode digits and spaces). *)
Variable float_str : str -> option number.
Variable int_unicode : str -> result Z.

Definition float (s : str) : result number :=
  match float_str s with
  | Some x => Ret x
  | None => Raise (ValueError (lit "could not convert string to float"))
  end.

Definition int_str (s : str) : result Z :=
  if Py.isascii s then Py.int_ascii s else int_unicode s.

(** [try: ... except ValueError: ...] *)
Definition try_except_ValueError {A} (m : M A) (handler : M A) : M A :=
  fun self =>
    match m self with
    | (Raise e, self') =>
        if isinstance_ValueError e then handler self' else (Raise e, self')
    | r => r
    end.

Definition assert (cond : bool) (why : str) : M unit :=
  if cond then ret tt else raise (AssertionError why).

Definition _query_float (cmd : str) : M number :=
  try_except_ValueError
    (ans <- query cmd ;; lift (float ans))
    (ret nan).

Definition _query_bool (cmd : str) : M bool :=
  ans <- query cmd ;;
  assert (Py.contains (lit "!@") ans)
         (lit "Unexpected response to query (" ++ cmd ++ lit ")") ;;;
  ret (Py.str_eq ans (lit "!")).

Definition testmode : M bool := _query_bool (lit "K?").
Definition setpoint_reached : M bool := _query_bool (lit "P").
Definition crystal_fail : M bool := _query_bool (lit "M").
Definition shutter : M bool := _query_bool (lit "A?").

Definition setpoint : M number := _query_float (lit "G?").

Definition setpoint_setter (value : number) : M unit :=
  assert (Py.ge value 0 && Py.le value 9999999)
         (lit "Setpoint out of range") ;;;
  n <- lift (Py.int_number value) ;;
  query (lit "G=" ++ Py.format_d n) ;;;
  ret tt.

Definition timer : M number :=
  ans <- query (lit "W") ;;
  c <- lift (Py.item0 ans) ;;
  if Py.str_eq c (lit ">") then ret nan
  else
    p <- lift (Py.unpack2 (Py.split 58 ans)) ;;
    let '(minutes, seconds) := p in
    m <- lift (int_str minutes) ;;
    s <- lift (int_str seconds) ;;
    ret (Fin (inject_Z (60 * m + s))).

(** [dict(density='j', zfactor='k', tooling='o')], in insertion order. *)
Definition params : list (string * str) :=
  [("density"%string, lit "j"); ("zfactor"%string, lit "k");
   ("tooling"%string, lit "o")].

(** [{k: f(v) for k, v in items}] *)
Fixpoint dict_comprehension (f : str -> M number)
         (items : list (string * str)) : M film :=
  match items with
  | [] => ret []
  | (k, v) :: items' =>
      x <- f v ;;
      d <- dict_comprehension f items' ;;
      ret ((k, x) :: d)
  end.

(** [for x in l: body(x)] *)
Fixpoint for_in {A} (l : list A) (body : A -> M unit) : M unit :=
  match l with
  | [] => ret tt
  | x :: l' => body x ;;; for_in l' body
  end.

Definition films_append (d : film) : M unit := fun self =>
  match _films self with
  | Some l => (Ret tt, set_films (Some (l ++ [d])) self)
  | None => (Raise AttributeError, self)
  end.

Definition query_films : M (option (list film)) :=
  (fun self => (Ret tt, set_films (Some []) self)) ;;;
  for_in (Py.range 1 10) (fun f =>
    d <- dict_comprehension
           (fun v => _query_float (v ++ Py.format_d f ++ lit "?")) params ;;
    films_append d) ;;;
  (fun self => (Ret (_films self), self)).

Definition films : M (option (list film)) :=
  query_films ;;;
  (fun self => (Ret (_films self), self)).

End Accessors.

(** The frame [_send] builds for [msg]; empty when [bytes] refuses it. *)
Definition frame (msg : str) : list byte :=
  match Py.bytes ([2; len msg] ++ msg ++ [_calc_checksum msg])%N with
  | Ret b => b
  | Raise _ => []
  end.

(** The session after a reply frame was consumed by [_read]: the frame is
    gone from [rx] and a checksum error is logged when [ok] is false. *)
Definition consumed (rest : list byte) (ok : bool) (self : STM100) : STM100 :=
  let self' := set_inst (mkResource rest (tx (inst self))) self in
  if ok then self'
  else set_log (log self ++ [error (lit "Checksum mismatch")]) self'.

(** The session after [_send] has written the frame of [msg]. *)
Definition sent (msg : str) (self : STM100) : STM100 :=
  let self' :=
    set_log (log self ++
             [debug (lit "Send command: " ++ msg ++
                     lit " (" ++ Py.repr_bytes (frame msg) ++ lit ")")])
            self in
  set_inst (mkResource (rx (inst self')) (tx (inst self') ++ [frame msg]))
           self'.

(** Text [_send] accepts: at most 10 characters, each of them a byte. *)
Definition sendable (msg : str) : Prop :=
  (len msg <= 10)%N /\ Forall (fun c => (c < 256)%N) msg.

(** The sum of the bytes of a payload, of which the wire format takes the
    checksum modulo 256. *)
Definition byte_sum (bs : list byte) : N :=
  fold_right (fun b acc => (Byte.to_N b + acc)%N) 0%N bs.

(** [fr] is the wire frame of the command [msg]: start byte, length byte,
    the characters of [msg] as bytes, and the sum of these bytes modulo
    256. *)
Definition is_frame (msg : str) (fr : list byte) : Prop :=
  exists (n : byte) (bs : list byte) (chk : byte),
    fr = [x02; n] ++ bs ++ [chk] /\
    Byte.to_N n = N.of_nat (length msg) /\
    map Byte.to_N bs = msg /\
    Byte.to_N chk = (byte_sum bs mod 256)%N.

(** A method leaves an observation [f] of the session as it was, whether it
    returns or raises. *)
Definition keeps {A B} (f : STM100 -> B) (m : M A) : Prop :=
  forall self, f (snd (m self)) = f self.

(** Encoding [msg] and decoding the frame again: [_send] writes one frame,
    and [_read], on a session that receives this frame (followed by
    anything), returns a status and a body that together are [msg], with the
    checksum byte of the frame equal to the checksum of the decoded text and
    nothing logged. *)
Definition roundtrips (msg : str) : Prop :=
  forall self : STM100,
  exists (n : byte) (payload : list byte) (chk : byte),
    tx (inst (snd (_send msg self)))
    = tx (inst self) ++ [x02 :: n :: payload ++ [chk]] /\
    forall (peer : STM100) (rest : list byte),
      rx (inst peer) = (x02 :: n :: payload ++ [chk]) ++ rest ->
      exists status body : str,
        fst (_read peer) = Ret (status, body) /\
        status ++ body = msg /\
        Byte.to_N chk = _calc_checksum (status ++ body) /\
        log (snd (_read peer)) = log peer.

(** The number a string of decimal digits stands for. *)
Definition decimal (s : str) : Z :=
  fold_left (fun acc c => (10 * acc + Z.of_N (c - 48))%Z) s 0%Z.

(** A decimal numeral as Python writes a non-negative integer: the one digit
    [0], or digits that do not begin with [0]. *)
Definition no_leading_zero (s : str) : bool :=
  match s with
  | [] => false
  | [_] => true
  | d :: _ => negb (d =? 48)%N
  end.

(** The reply of a boolean query as [_query_bool] reads it. *)
Definition bool_of_reply (cmd ans : str) : result bool :=
  if Py.str_eq ans (lit "!") then Ret true
  else if Py.str_eq ans (lit "@") || Py.str_eq ans [] ||
          Py.str_eq ans (lit "!@")
       then Ret false
       else Raise (AssertionError
                     (lit "Unexpected response to query (" ++ cmd ++ lit ")")).

(** The values the setpoint setter accepts: finite, from 0 to 9999999. *)
Definition in_setpoint_range (value : number) : Prop :=
  match value with
  | Fin q => 0 <= q /\ q <= inject_Z 9999999
  | Inf | NegInf | NaN => False
  end.

(** The command that asks slot [f] for the parameter with mnemonic [v]. *)
Definition film_command (f : Z) (v : str) : str :=
  v ++ Py.format_d f ++ lit "?".

(** The commands of [query_films], in the order they are issued. *)
Definition film_commands : list str :=
  flat_map (fun f => map (fun kv => film_command f (snd kv)) params)
           (Py.range 1 10).

(** The keys of a film record, in order. *)
Definition film_keys : list string := map fst params.

(** A reply frame as the instrument puts it on the wire. *)
Record reply : Type := mkReply {
  length_byte : byte;
  payload : list byte;
  checksum_byte : byte
}.

Definition on_the_wire (r : reply) : list byte :=
  x02 :: length_byte r :: payload r ++ [checksum_byte r].

(** The reply decodes: its length byte counts the payload, and the payload
    is text with a status character. *)
Definition decodes (r : reply) : bool :=
  (Byte.to_N (length_byte r) =? N.of_nat (length (payload r)))%N &&
  match Py.utf8 (payload r) with
  | Some (_ :: _) => true
  | _ => false
  end.

Definition body_of (r : reply) : str :=
  match Py.utf8 (payload r) with
  | Some s => tl s
  | None => []
  end.

(** What [_query_float] returns for a reply that decodes. *)
Definition float_of_reply (float_str : str -> option number) (r : reply)
  : number :=
  match float_str (body_of r) with
  | Some x => x
  | None => nan
  end.

(** The film records made from replies taken three at a time. *)
Fixpoint films_of_replies (float_str : str -> option number)
         (rs : list reply) : list film :=
  match rs with
  | r1 :: r2 :: r3 :: rs' =>
      [("density"%string, float_of_reply float_str r1);
       ("zfactor"%string, float_of_reply float_str r2);
       ("tooling"%string, float_of_reply float_str r3)]
      :: films_of_replies float_str rs'
  | _ => []
  end.

(** ** The other accessors of [STM100] *)

Module Fmt.

(** [round(a / b)] for [a >= 0], to the nearest integer, a tie to the even
    one: the rounding of [float.__format__]. *)
Definition round_half_even (a : Z) (b : positive) : Z :=
  let n := (a / Zpos b)%Z in
  let r := (a mod Zpos b)%Z in
  if (2 * r <? Zpos b)%Z then n
  else if (Zpos b <? 2 * r)%Z then (n + 1)%Z
  else if Z.even n then n else (n + 1)%Z.

(** The [p] low decimal digits of [m], most significant first. *)
Fixpoint fixed (p : nat) (m : N) : str :=
  match p with
  | O => []
  | S p' => fixed p' (m / 10)%N ++ [(48 + m mod 10)%N]
  end.

(** [f"{x:.<prec>f}"] for a float, or an int that a float holds exactly:
    the exact value rounded to [prec] decimals.  A negative value that
    rounds to zero keeps its sign.  ([Fin 0] is the positive zero; the
    negative zero of a float is a value of [float_arg].) *)
Definition format_f (prec : nat) (x : number) : str :=
  match x with
  | Fin q =>
      let scale := (10 ^ Z.of_nat prec)%Z in
      let n := round_half_even (Z.abs (Qnum q) * scale) (Qden q) in
      (if (Qnum q <? 0)%Z then [45%N] else []) ++
      Py.format_d (n / scale) ++
      match prec with
      | O => []
      | S _ => 46%N :: fixed prec (Z.to_N (n mod scale))
      end
  | Inf => lit "inf"
  | NegInf => lit "-inf"
  | NaN => lit "nan"
  end.

(** [x >= y] and [x <= y] of a number and a float [y] given by its exact
    value. *)
Definition ge (x : number) (y : Q) : bool :=
  match x with
  | Fin q => Qle_bool y q
  | Inf => true
  | NegInf | NaN => false
  end.

Definition le (x : number) (y : Q) : bool :=
  match x with
  | Fin q => Qle_bool q y
  | NegInf => true
  | Inf | NaN => false
  end.

(** The floats the literals [0.5] and [99.99] denote. *)
Definition float_0_5 : Q := 1 # 2.
Definition float_99_99 : Q := 7036170730324623 # 70368744177664.

(** A float as a setter without range check receives it: a [number], or
    the negative zero, which [number] does not tell from zero. *)
Inductive float_arg : Type :=
| Number (x : number)
| NegativeZero.

Definition format_f_arg (prec : nat) (v : float_arg) : str :=
  match v with
  | Number x => format_f prec x
  | NegativeZero => 45%N :: format_f prec (Fin 0)
  end.

(** [ord(s)] for a string: it must hold exactly one character. *)
Definition ord_str (s : str) : result N :=
  match s with
  | [c] => Ret c
  | _ => Raise TypeError
  end.

End Fmt.

Definition model : M str := query (lit "@").

Definition testmode_setter (enable : bool) : M unit :=
  let c := if enable then lit "!" else lit "@" in
  query (lit "K" ++ c) ;;;
  ret tt.

Definition shutter_setter (enable : bool) : M unit :=
  let v := if enable then lit "!" else lit "@" in
  query (lit "A" ++ v) ;;;
  ret tt.

Definition thickness (float_str : str -> option number) : M number :=
  _query_float float_str (lit "S").
Definition rate (float_str : str -> option number) : M number :=
  _query_float float_str (lit "T").
Definition density (float_str : str -> option number) : M number :=
  _query_float float_str (lit "E?").
Definition zfactor (float_str : str -> option number) : M number :=
  _query_float float_str (lit "F?").
Definition tooling (float_str : str -> option number) : M number :=
  _query_float float_str (lit "J?").
Definition frequency (float_str : str -> option number) : M number :=
  _query_float float_str (lit "U").
Definition lifetime (float_str : str -> option number) : M number :=
  _query_float float_str (lit "V").

(** The assertion of the density setter has no message. *)
Definition density_setter (value : number) : M unit :=
  assert (Fmt.ge value Fmt.float_0_5 && Fmt.le value Fmt.float_99_99) [] ;;;
  query (lit "E=" ++ Fmt.format_f 3 value) ;;;
  ret tt.

Definition tooling_setter (value : number) : M unit :=
  assert (Py.ge value 10 && Py.le value 399) [] ;;;
  query (lit "J=" ++ Fmt.format_f 1 value) ;;;
  ret tt.

(** The setter of [zfactor] checks no range; [value] is a float. *)
Definition zfactor_setter (value : Fmt.float_arg) : M unit :=
  query (lit "F=" ++ Fmt.format_f_arg 3 value) ;;;
  ret tt.

(** [[bool(ans & i) for i in [1, 2, 4]]] *)
Definition poweron_status : M (list bool) :=
  s <- query (lit "a") ;;
  ans <- lift (Fmt.ord_str s) ;;
  ret (map (fun i => negb (N.land ans i =? 0)%N) [1; 2; 4]%N).

Definition reset_poweron_status : M unit :=
  query (lit "L") ;;;
  ret tt.

Definition zero (what : str) : M unit :=
  cmd <- (if Py.str_eq what (lit "both") then ret (lit "B")
          else if Py.str_eq what (lit "thickness") then ret (lit "C")
          else if Py.str_eq what (lit "timer") then ret (lit "D")
          else raise (ValueError
                 (lit "Parameter 'what' needs to be both/thickness/timer"))) ;;
  query cmd ;;;
  ret tt.

(** ** The Tango device (STM100Tango.py) *)

(** The device states the server uses, and [UNKNOWN], the state of a device
    before [init_device]. *)
Inductive DevState : Type := ON | OFF | FAULT | UNKNOWN.

(** What the hook sees of an [STM100Tango] object: the driver session
    [qcm] and the Tango state. *)
Record STM100Tango : Type := mkSTM100Tango {
  qcm : STM100;
  dev_state : DevState
}.

(** [statuscode in "AB"]: a substring test, and a [TypeError] when
    [statuscode] is still [None]. *)
Definition always_executed_hook (d : STM100Tango)
  : result unit * STM100Tango :=
  match statuscode (qcm d) with
  | None => (Raise TypeError, d)
  | Some s =>
      if Py.contains (lit "AB") s
      then (Ret tt, mkSTM100Tango (qcm d) ON)
      else (Ret tt, mkSTM100Tango (qcm d) FAULT)
  end.

(** ** Observations used in the statements *)

(** [statuscode] holds a status character. *)
Definition has_status (self : STM100) : Prop :=
  exists c : N, statuscode self = Some [c].

(** From [self] to [self'] the status code stayed as it was or became a
    status character. *)
Definition status_step (self self' : STM100) : Prop :=
  statuscode self' = statuscode self \/ has_status self'.

(** A method only makes [status_step]s. *)
Definition steps_status {A} (m : M A) : Prop :=
  forall self, status_step self (snd (m self)).

(** The exceptions [_read] can raise. *)
Definition read_failure (e : exn) : Prop :=
  e = VisaIOError \/ e = UnicodeDecodeError \/ e = IndexError \/
  e = RuntimeError (lit "Received message without start byte").

(** The values the density and the tooling setter accept. *)
Definition in_density_range (value : number) : Prop :=
  match value with
  | Fin q => Fmt.float_0_5 <= q /\ q <= Fmt.float_99_99
  | Inf | NegInf | NaN => False
  end.

Definition in_tooling_range (value : number) : Prop :=
  match value with
  | Fin q => inject_Z 10 <= q /\ q <= inject_Z 399
  | Inf | NegInf | NaN => False
  end.

(** The character that stands for a boolean on the wire. *)
Definition sentinel (enable : bool) : str :=
  if enable then lit "!" else lit "@".

(** The calls a user of the driver can make on an open session: [query],
    every getter and setter, [films], [zero] and the two power-on
    methods. *)
Inductive call : Type :=
| Query (msg : str)
| Model
| Testmode
| SetTestmode (enable : bool)
| Thickness
| Setpoint
| SetSetpoint (value : number)
| SetpointReached
| Rate
| Density
| SetDensity (value : number)
| Zfactor
| SetZfactor (value : Fmt.float_arg)
| Tooling
| SetTooling (value : number)
| Frequency
| Lifetime
| CrystalFail
| Timer
| Films
| QueryFilms
| Shutter
| SetShutter (enable : bool)
| PoweronStatus
| ResetPoweronStatus
| Zero (what : str).

(** The session after a call, whether it returned or raised. *)
Definition after (float_str : str -> option number)
           (int_unicode : str -> result Z) (c : call) (self : STM100)
  : STM100 :=
  match c with
  | Query msg => snd (query msg self)
  | Model => snd (model self)
  | Testmode => snd (testmode self)
  | SetTestmode enable => snd (testmode_setter enable self)
  | Thickness => snd (thickness float_str self)
  | Setpoint => snd (setpoint float_str self)
  | SetSetpoint value => snd (setpoint_setter value self)
  | SetpointReached => snd (setpoint_reached self)
  | Rate => snd (rate float_str self)
  | Density => snd (density float_str self)
  | SetDensity value => snd (density_setter value self)
  | Zfactor => snd (zfactor float_str self)
  | SetZfactor value => snd (zfactor_setter value self)
  | Tooling => snd (tooling float_str self)
  | SetTooling value => snd (tooling_setter value self)
  | Frequency => snd (frequency float_str self)
  | Lifetime => snd (lifetime float_str self)
  | CrystalFail => snd (crystal_fail self)
  | Timer => snd (timer int_unicode self)
  | Films => snd (films float_str self)
  | QueryFilms => snd (query_films float_str self)
  | Shutter => snd (shutter self)
  | SetShutter enable => snd (shutter_setter enable self)
  | PoweronStatus => snd (poweron_status self)
  | ResetPoweronStatus => snd (reset_poweron_status self)
  | Zero what => snd (zero what self)
  end.

(** The session after a sequence of calls, each one made whatever became
    of the one before. *)
Definition after_all (float_str : str -> option number)
           (int_unicode : str -> result Z) (calls : list call)
           (self : STM100) : STM100 :=
  fold_left (fun s c => after float_str int_unicode c s) calls self.

Create HintDb steps.

(** Walks through a method body for [steps_status]; [bind_step] is the
    tactic that splits a [bind]. *)
Ltac steps_walk_with bind_step :=
  repeat first
    [ solve [auto with steps]
    | bind_step
    | match goal with
      | |- steps_status (if ?b then _ else _) => destruct b
      | |- steps_status (let '(_, _) := ?p in _) => destruct p
      end ].

(** Inputs for the examples: [float] restricted to text that [int] reads
    too (a whole number; other text counts as not numeric), and 27 replies,
    for each slot [n] the bodies [n] (with a wrong checksum byte), [2] and
    the empty body. *)
Definition float_whole (s : str) : option number :=
  match Py.int_ascii s with
  | Ret z => Some (Fin (inject_Z z))
  | Raise _ => None
  end.

Definition example_replies : list reply :=
  flat_map (fun d => [mkReply x02 [x41; d] x00;
                      mkReply x02 [x41; x32] x73;
                      mkReply x01 [x41] x41])
           [x31; x32; x33; x34; x35; x36; x37; x38; x39].

Create HintDb keeps.

(** Walks through the binds and conditionals of a method body; [bind_step]
    is the tactic that splits a [bind]. *)
Ltac keeps_walk_with bind_step :=
  repeat first
    [ bind_step
    | match goal with
      | |- keeps _ (if ?b then _ else _) => destruct b
      | |- keeps _ (let '(_, _) := ?p in _) => destruct p
      end ];
  auto with keeps; try (intros ?; reflexivity).

(** ** Examples *)

Example read_ok :
  _read (on_wire [x02; x03; x41; x31; x32; xa4])
  = (Ret (lit "A", lit "12"), on_wire []).
Proof. reflexivity. Qed.

Example send_logs :
  log (snd (_send (lit "G=5000") (on_wire [])))
  = [debug (lit "Send command: G=5000 (b'\x02\x06G=5000I')")].
Proof. reflexivity. Qed.

Example frame_j1 : frame (lit "j1?") = [x02; x03; x6a; x31; x3f; xda].
Proof. reflexivity. Qed.

(** [_send] writes a character up to 255 as one byte, [_read] decodes
    UTF-8: the command of the one character U+00E9 does not come back. *)
Example send_latin1_read_utf8 :
  tx (inst (snd (_send [233%N] (on_wire [])))) = [[x02; x01; xe9; xe9]] /\
  fst (_read (on_wire [x02; x01; xe9; xe9])) = Raise UnicodeDecodeError.
Proof. split; reflexivity. Qed.

(** [UnicodeDecodeError] is a [ValueError]: [_query_float] turns a payload
    that is no text into [nan] and leaves the rest of the frame unread. *)
Example query_float_undecodable :
  fst (_query_float float_whole (lit "S") (on_wire [x02; x01; xff; xff]))
  = Ret nan /\
  rx (inst (snd (_query_float float_whole (lit "S")
                   (on_wire [x02; x01; xff; xff])))) = [xff].
Proof. split; reflexivity. Qed.

Example format_5000 : Py.format_d 5000 = lit "5000".
Proof. reflexivity. Qed.

Example int_0130 : Py.int_ascii (lit " +01_30 ") = Ret 130%Z.
Proof. reflexivity. Qed.

Example frame_G5000 :
  frame (lit "G=5000") = [x02; x06; x47; x3d; x35; x30; x30; x30; x49].
Proof. reflexivity. Qed.

Example film_commands_are :
  film_commands
  = map lit ["j1?"; "k1?"; "o1?"; "j2?"; "k2?"; "o2?"; "j3?"; "k3?"; "o3?";
             "j4?"; "k4?"; "o4?"; "j5?"; "k5?"; "o5?"; "j6?"; "k6?"; "o6?";
             "j7?"; "k7?"; "o7?"; "j8?"; "k8?"; "o8?"; "j9?"; "k9?"; "o9?"
            ]%string.
Proof. reflexivity. Qed.

Example utf8_two : Py.utf8 [xc3; xa9] = Some [233%N].
Proof. reflexivity. Qed.

Example utf8_overlong : Py.utf8 [xc0; x80] = None.
Proof. reflexivity. Qed.

Example utf8_surrogate : Py.utf8 [xed; xa0; x80] = None.
Proof. reflexivity. Qed.

Example utf8_four : Py.utf8 [xf0; x9f; x98; x80] = Some [128512%N].
Proof. reflexivity. Qed.

(** ** Builtins: basic facts *)

Lemma bytes_Ret (l : list N) :
  Forall (fun n => (n < 256)%N) l ->
  exists bs, Py.bytes l = Ret bs /\ map Byte.to_N bs = l.
Proof.
  induction 1 as [|n l Hn _ [bs [E1 E2]]]; simpl.
  - exists []; auto.
  - destruct (Byte.of_N n) as [b|] eqn:Eb.
    + rewrite E1. exists (b :: bs). split; [reflexivity|]. simpl.
      rewrite E2. f_equal. now apply Byte.to_of_N.
    + exfalso. apply Byte.of_N_None_iff in Eb. lia.
Qed.

Lemma bytes_length (l : list N) (bs : list byte) :
  Py.bytes l = Ret bs -> length bs = length l.
Proof.
  revert bs. induction l as [|n l IH]; simpl; intros bs H.
  - now inversion H.
  - destruct (Byte.of_N n); [|discriminate].
    destruct (Py.bytes l); [|discriminate].
    inversion H; subst. simpl. f_equal. now apply IH.
Qed.

Lemma utf8_ascii (bs : list byte) :
  Forall (fun b => (Byte.to_N b < 128)%N) bs ->
  Py.utf8 bs = Some (map Byte.to_N bs).
Proof.
  induction 1 as [|b bs Hb _ IH]; [reflexivity|].
  cbn [Py.utf8 map]. apply N.ltb_lt in Hb. cbv zeta. rewrite Hb, IH.
  reflexivity.
Qed.

Lemma fold_add_shift (l : str) (a : N) :
  fold_left N.add l a = (a + fold_left N.add l 0)%N.
Proof.
  revert a. induction l as [|c l IH]; intros a; cbn [fold_left].
  - lia.
  - rewrite (IH (a + c)%N), (IH (0 + c)%N). lia.
Qed.

(** On bytes the checksum of the driver is the sum of the bytes modulo
    256. *)
Lemma checksum_byte_sum (bs : list byte) :
  _calc_checksum (map Byte.to_N bs) = (byte_sum bs mod 256)%N.
Proof.
  unfold _calc_checksum. f_equal.
  induction bs as [|b bs IH]; [reflexivity|]. cbn [map fold_left byte_sum
    fold_right]. rewrite fold_add_shift, IH. reflexivity.
Qed.

(** ** The transport *)

Lemma read_bytes_app (bs rest : list byte) (n : N) (self : STM100) :
  rx (inst self) = bs ++ rest ->
  n = N.of_nat (length bs) ->
  Visa.read_bytes n self
  = (Ret bs, set_inst (mkResource rest (tx (inst self))) self).
Proof.
  intros Hrx ->. unfold Visa.read_bytes. rewrite Nat2N.id, Hrx.
  rewrite length_app.
  replace (length bs <=? length bs + length rest)%nat with true
    by (symmetry; apply Nat.leb_le; lia).
  rewrite firstn_app, Nat.sub_diag, firstn_all, skipn_app, Nat.sub_diag.
  rewrite skipn_all. simpl. now rewrite app_nil_r.
Qed.

Lemma read_byte (b : byte) (rest : list byte) (self : STM100) :
  rx (inst self) = b :: rest ->
  Visa.read_bytes 1 self
  = (Ret [b], set_inst (mkResource rest (tx (inst self))) self).
Proof. intros H. now apply (read_bytes_app [b] rest). Qed.

(** ** [_read] on a frame *)

(** What [_read] does with a frame whose payload is text: it consumes the
    frame, logs a checksum error when the checksum byte is not the checksum
    of the text, and returns the first character and the rest; an empty
    text has no first character. *)
Lemma _read_frame (self : STM100) (n chk : byte) (payload rest : list byte)
      (msg : str) :
  rx (inst self) = x02 :: n :: payload ++ chk :: rest ->
  Byte.to_N n = N.of_nat (length payload) ->
  Py.utf8 payload = Some msg ->
  _read self
  = (match msg with
     | c :: body => Ret ([c], body)
     | [] => Raise IndexError
     end,
     consumed rest (Byte.to_N chk =? _calc_checksum msg)%N self).
Proof.
  intros Hrx Hn Hmsg. unfold _read, bind.
  rewrite (read_byte _ Hrx). cbn -[Visa.read_bytes _calc_checksum lit].
  rewrite (@read_byte n (payload ++ chk :: rest)) by reflexivity.
  cbn -[Visa.read_bytes _calc_checksum lit].
  rewrite (@read_bytes_app payload (chk :: rest)) by (auto; reflexivity).
  unfold Py.decode. rewrite Hmsg.
  rewrite (@read_byte chk rest) by reflexivity.
  cbn -[_calc_checksum lit].
  unfold consumed. destruct self as [[rx0 tx0] lg sc fl].
  destruct (Byte.to_N chk =? _calc_checksum msg)%N; destruct msg;
    reflexivity.
Qed.

(** ** [_send] *)

Lemma byte_of_to_N (b : byte) (n : N) (b' : byte) :
  Byte.to_N b = n -> Byte.of_N n = Some b' -> b = b'.
Proof.
  intros <- H. rewrite Byte.of_to_N in H. now inversion H.
Qed.

Lemma checksum_lt (msg : str) : (_calc_checksum msg < 256)%N.
Proof. unfold _calc_checksum. now apply N.mod_lt. Qed.

(** The shape of the frame of a sendable text. *)
Lemma frame_shape (msg : str) :
  sendable msg ->
  exists (n : byte) (bs : list byte) (chk : byte),
    Py.bytes ([2; len msg] ++ msg ++ [_calc_checksum msg])%N
    = Ret (x02 :: n :: bs ++ [chk]) /\
    Byte.to_N n = len msg /\
    map Byte.to_N bs = msg /\
    Byte.to_N chk = _calc_checksum msg.
Proof.
  intros [Hlen Hall].
  destruct (@bytes_Ret ([2; len msg] ++ msg ++ [_calc_checksum msg])%N)
    as [all [E Hmap]].
  { repeat constructor; try lia.
    apply Forall_app; split; [assumption|].
    constructor; [apply checksum_lt|constructor]. }
  destruct all as [|a [|n rest]]; try discriminate.
  simpl in Hmap. injection Hmap as Ha Hn Hrest.
  apply map_eq_app in Hrest. destruct Hrest as [bs [tl_ [-> [Hbs Hchk]]]].
  destruct tl_ as [|chk [|? ?]]; try discriminate.
  injection Hchk as Hchk.
  assert (a = x02) by (eapply byte_of_to_N; [exact Ha|reflexivity]).
  subst a. exists n, bs, chk. rewrite E. auto.
Qed.

Lemma _send_ok (msg : str) (self : STM100) :
  sendable msg ->
  _send msg self = (Ret (len msg + 3)%N, sent msg self).
Proof.
  intros Hs. destruct (frame_shape Hs) as [n [bs [chk [E [Hn [Hbs Hchk]]]]]].
  destruct Hs as [Hlen _].
  unfold _send, sent, frame.
  replace (10 <? len msg)%N with false by (symmetry; apply N.ltb_ge; lia).
  unfold bind, lift. rewrite E.
  cbn -[lit _calc_checksum len Py.repr_bytes]. unfold Visa.write_raw.
  f_equal. f_equal.
  simpl length. rewrite length_app. simpl length.
  rewrite <- Hbs. unfold len. rewrite length_map. lia.
Qed.

Lemma _send_too_long (msg : str) (self : STM100) :
  (10 < len msg)%N ->
  _send msg self
  = (Raise (ValueError (lit "maximum message length is 10!")), self).
Proof.
  intros H. unfold _send. apply N.ltb_lt in H. now rewrite H.
Qed.

Lemma frame_is_frame (msg : str) : sendable msg -> is_frame msg (frame msg).
Proof.
  intros Hs. destruct (frame_shape Hs) as [n [bs [chk [E [Hn [Hbs Hchk]]]]]].
  exists n, bs, chk. unfold frame. rewrite E. repeat split; auto.
  rewrite Hchk, <- Hbs. apply checksum_byte_sum.
Qed.

(** ** What a method leaves alone *)

Lemma keeps_ret {A B} (f : STM100 -> B) (a : A) : keeps f (ret a).
Proof. intros self. reflexivity. Qed.

Lemma keeps_raise {A B} (f : STM100 -> B) (e : exn) : keeps f (@raise A e).
Proof. intros self. reflexivity. Qed.

Lemma keeps_lift {A B} (f : STM100 -> B) (r : result A) : keeps f (lift r).
Proof. intros self. reflexivity. Qed.

Lemma keeps_bind {A C B} (f : STM100 -> B) (m : M A) (k : A -> M C) :
  keeps f m -> (forall a, keeps f (k a)) -> keeps f (bind m k).
Proof.
  intros Hm Hk self. unfold bind. specialize (Hm self).
  destruct (m self) as [[a|e] self']; simpl in *.
  - now rewrite Hk.
  - exact Hm.
Qed.

Lemma read_bytes_keeps {B} (f : STM100 -> B) (count : N) :
  (forall i self, f (set_inst i self) = f self) ->
  keeps f (Visa.read_bytes count).
Proof.
  intros H self. unfold Visa.read_bytes.
  destruct (_ <=? _)%nat; simpl; apply H.
Qed.

Lemma read_bytes_keeps_tx (count : N) :
  keeps (fun self => tx (inst self)) (Visa.read_bytes count).
Proof.
  intros self. unfold Visa.read_bytes. now destruct (_ <=? _)%nat.
Qed.

Lemma log_error_keeps {B} (f : STM100 -> B) (text : str) :
  (forall l self, f (set_log l self) = f self) ->
  keeps f (log_error text).
Proof. intros H self. apply H. Qed.

Lemma log_debug_keeps {B} (f : STM100 -> B) (text : str) :
  (forall l self, f (set_log l self) = f self) ->
  keeps f (log_debug text).
Proof. intros H self. apply H. Qed.

Lemma flush_keeps {B} (f : STM100 -> B) :
  (forall i self, f (set_inst i self) = f self) ->
  keeps f Visa.flush_discard_read_buffer.
Proof. intros H self. apply H. Qed.

Lemma write_raw_keeps {B} (f : STM100 -> B) (message : list byte) :
  (forall i self, f (set_inst i self) = f self) ->
  keeps f (Visa.write_raw message).
Proof. intros H self. apply H. Qed.

#[local] Hint Resolve keeps_ret keeps_raise keeps_lift read_bytes_keeps
  read_bytes_keeps_tx log_error_keeps log_debug_keeps flush_keeps
  write_raw_keeps : keeps.


Lemma _read_keeps_statuscode : keeps statuscode _read.
Proof. unfold _read. keeps_walk_with ltac:(apply keeps_bind; [|intros]). Qed.

Lemma _read_keeps_films : keeps _films _read.
Proof. unfold _read. keeps_walk_with ltac:(apply keeps_bind; [|intros]). Qed.

Lemma _read_keeps_tx : keeps (fun self => tx (inst self)) _read.
Proof. unfold _read. keeps_walk_with ltac:(apply keeps_bind; [|intros]). Qed.

Lemma _send_keeps_statuscode (msg : str) : keeps statuscode (_send msg).
Proof. unfold _send. keeps_walk_with ltac:(apply keeps_bind; [|intros]). Qed.

Lemma _send_keeps_films (msg : str) : keeps _films (_send msg).
Proof. unfold _send. keeps_walk_with ltac:(apply keeps_bind; [|intros]). Qed.

Lemma _send_keeps_rx (msg : str) :
  keeps (fun self => rx (inst self)) (_send msg).
Proof. unfold _send. keeps_walk_with ltac:(apply keeps_bind; [|intros]). Qed.

#[local] Hint Resolve _read_keeps_statuscode _read_keeps_films _read_keeps_tx
  _send_keeps_statuscode _send_keeps_films _send_keeps_rx : keeps.

Lemma query_keeps_films (msg : str) : keeps _films (query msg).
Proof. unfold query. keeps_walk_with ltac:(apply keeps_bind; [|intros]). Qed.

(** ** The frame codec: encoding *)

(** C8: [_send] refuses a command of 11 characters with the [ValueError]
    "maximum message length is 10!" and leaves the session as it was, so
    nothing is written; a command of 10 characters that are bytes is
    accepted, and what is written is the frame
    [0x02, 10] + command bytes + checksum, the checksum being the sum of
    the command bytes modulo 256. *)
Theorem send_length_limit :
  (forall (msg : str) (self : STM100),
      len msg = 11%N ->
      _send msg self
      = (Raise (ValueError (lit "maximum message length is 10!")), self)) /\
  (forall (msg : str) (self : STM100),
      len msg = 10%N ->
      Forall (fun c => (c < 256)%N) msg ->
      exists (bs : list byte) (chk : byte),
        map Byte.to_N bs = msg /\
        Byte.to_N chk = (byte_sum bs mod 256)%N /\
        Byte.to_N chk = _calc_checksum msg /\
        fst (_send msg self) = Ret 13%N /\
        tx (inst (snd (_send msg self)))
        = tx (inst self) ++ [[x02; x0a] ++ bs ++ [chk]] /\
        rx (inst (snd (_send msg self))) = rx (inst self)).
Proof.
  split.
  - intros msg self H. apply _send_too_long. lia.
  - intros msg self Hlen Hall.
    assert (Hs : sendable msg) by (split; [lia|assumption]).
    destruct (frame_shape Hs) as [n [bs [chk [E [Hn [Hbs Hchk]]]]]].
    exists bs, chk. rewrite (_send_ok self Hs). unfold sent, frame.
    rewrite E, Hlen. cbn [fst snd set_inst set_log inst tx rx].
    assert (n = x0a)
      by (eapply byte_of_to_N; [rewrite Hn; exact Hlen|reflexivity]).
    subst n. repeat split; auto.
    rewrite Hchk, <- Hbs. apply checksum_byte_sum.
Qed.

Lemma send_length_limit_witness :
  _send (lit "0123456789A") (on_wire [])
  = (Raise (ValueError (lit "maximum message length is 10!")), on_wire []) /\
  exists (bs : list byte) (chk : byte),
    map Byte.to_N bs = lit "j1?k1?o1?!" /\
    Byte.to_N chk = (byte_sum bs mod 256)%N /\
    Byte.to_N chk = _calc_checksum (lit "j1?k1?o1?!") /\
    fst (_send (lit "j1?k1?o1?!") (on_wire [])) = Ret 13%N /\
    tx (inst (snd (_send (lit "j1?k1?o1?!") (on_wire []))))
    = tx (inst (on_wire [])) ++ [[x02; x0a] ++ bs ++ [chk]] /\
    rx (inst (snd (_send (lit "j1?k1?o1?!") (on_wire []))))
    = rx (inst (on_wire [])).
Proof.
  split.
  - apply (proj1 send_length_limit). reflexivity.
  - apply (proj2 send_length_limit).
    + reflexivity.
    + repeat constructor.
Defined.

Example send_ten_characters :
  tx (inst (snd (_send (lit "j1?k1?o1?!") (on_wire []))))
  = [[x02; x0a; x6a; x31; x3f; x6b; x31; x3f; x6f; x31; x3f; x21; xb5]].
Proof. reflexivity. Qed.

(** ** The frame codec: decoding *)

(** C2, as the code has it: a frame that begins with the start byte, whose
    length byte counts its payload bytes and whose payload is UTF-8 text of
    at least one character is decoded into that first character and the
    rest of the text, whatever its checksum byte is: the frame is consumed,
    nothing is raised, and the log grows by the error record "Checksum
    mismatch" or not at all.  When the payload is ASCII, the record is
    logged exactly when the checksum byte differs from the sum of the
    payload bytes modulo 256. *)
Theorem read_ignores_checksum
        (self : STM100) (n chk : byte) (payload rest : list byte)
        (c : N) (body : str) :
  rx (inst self) = x02 :: n :: payload ++ chk :: rest ->
  Byte.to_N n = N.of_nat (length payload) ->
  Py.utf8 payload = Some (c :: body) ->
  fst (_read self) = Ret ([c], body) /\
  rx (inst (snd (_read self))) = rest /\
  (log (snd (_read self)) = log self \/
   log (snd (_read self)) = log self ++ [error (lit "Checksum mismatch")]) /\
  (Forall (fun b => (Byte.to_N b < 128)%N) payload ->
   log (snd (_read self))
   = log self ++
     (if (Byte.to_N chk =? byte_sum payload mod 256)%N then []
      else [error (lit "Checksum mismatch")])).
Proof.
  intros Hrx Hn Hp.
  rewrite (@_read_frame self n chk payload rest _ Hrx Hn Hp).
  unfold consumed. split; [now destruct (_ =? _)%N|].
  split; [now destruct (_ =? _)%N|]. split.
  - destruct (_ =? _)%N; cbn -[lit]; auto.
  - intros Hascii. rewrite (utf8_ascii Hascii) in Hp. injection Hp as Hp.
    rewrite <- checksum_byte_sum, <- Hp.
    destruct (_ =? _)%N; cbn -[lit]; [now rewrite app_nil_r|reflexivity].
Qed.

Lemma read_ignores_checksum_witness :
  fst (_read (on_wire [x02; x03; x41; x31; x32; x00])) = Ret (lit "A", lit "12")
  /\ rx (inst (snd (_read (on_wire [x02; x03; x41; x31; x32; x00])))) = []
  /\ Forall (fun b => (Byte.to_N b < 128)%N) [x41; x31; x32]
  /\ (Byte.to_N x00 <> byte_sum [x41; x31; x32] mod 256)%N
  /\ log (snd (_read (on_wire [x02; x03; x41; x31; x32; x00])))
     = log (on_wire [x02; x03; x41; x31; x32; x00])
       ++ [error (lit "Checksum mismatch")].
Proof.
  assert (Hascii : Forall (fun b => (Byte.to_N b < 128)%N) [x41; x31; x32])
    by (repeat constructor).
  destruct (@read_ignores_checksum (on_wire [x02; x03; x41; x31; x32; x00])
              x03 x00 [x41; x31; x32] [] 65%N (lit "12")
              eq_refl eq_refl eq_refl) as [H1 [H2 [_ H4]]].
  split; [exact H1|]. split; [exact H2|]. split; [exact Hascii|].
  split; [discriminate|]. exact (H4 Hascii).
Defined.

Example read_logs_wrong_checksum :
  log (snd (_read (on_wire [x02; x03; x41; x31; x32; x00])))
  = [error (lit "Checksum mismatch")] /\
  log (snd (_read (on_wire [x02; x03; x41; x31; x32; xa4]))) = [].
Proof. split; reflexivity. Qed.

(** C2, as stated, fails: the frame 02 01 FF FF begins with the start byte
    and carries a length byte, that many payload bytes and a checksum byte,
    but its payload is not UTF-8 text and [_read] raises
    [UnicodeDecodeError] (before it reads the checksum byte).  And on a
    payload that is text but not ASCII the comparison is not with the sum
    of the payload bytes: for the payload 41 C3 A9, whose bytes sum to AD
    modulo 256, the frame with the checksum byte AD is logged as a
    mismatch and the frame with the checksum byte 2A is not. *)
Lemma read_rejects_undecodable_payload :
  (fst (_read (on_wire [x02; x01; xff; xff])) = Raise UnicodeDecodeError /\
   rx (inst (snd (_read (on_wire [x02; x01; xff; xff])))) = [xff]) /\
  (byte_sum [x41; xc3; xa9] mod 256 = Byte.to_N xad /\
   log (snd (_read (on_wire [x02; x03; x41; xc3; xa9; xad])))
   = [error (lit "Checksum mismatch")] /\
   log (snd (_read (on_wire [x02; x03; x41; xc3; xa9; x2a]))) = [])%N.
Proof. repeat split. Qed.

(** C3, as stated, fails: on the frame 02 00 00 (length byte 0, no payload,
    then the checksum byte) [_read] reads the whole frame and raises
    [IndexError] at [msg[0]]. *)
Lemma read_empty_payload_raises :
  fst (_read (on_wire [x02; x00; x00])) = Raise IndexError /\
  rx (inst (snd (_read (on_wire [x02; x00; x00])))) = [].
Proof. split; reflexivity. Qed.

(** C3, as the code has it: a payload carries at least the status
    character.  A frame whose length byte is 1 and whose one payload byte is
    an ASCII character decodes into that status and an empty body; a frame
    whose length byte is 0 is read to its end and then raises [IndexError],
    there being no status character. *)
Theorem read_shortest_payload :
  (forall (self : STM100) (status chk : byte) (rest : list byte),
      rx (inst self) = x02 :: x01 :: status :: chk :: rest ->
      (Byte.to_N status < 128)%N ->
      fst (_read self) = Ret ([Byte.to_N status], []) /\
      rx (inst (snd (_read self))) = rest) /\
  (forall (self : STM100) (chk : byte) (rest : list byte),
      rx (inst self) = x02 :: x00 :: chk :: rest ->
      fst (_read self) = Raise IndexError /\
      rx (inst (snd (_read self))) = rest).
Proof.
  split.
  - intros self status chk rest Hrx Hlt.
    assert (Hp : Py.utf8 [status] = Some [Byte.to_N status])
      by (apply (@utf8_ascii [status]); repeat constructor; exact Hlt).
    rewrite (@_read_frame self x01 chk [status] rest _ Hrx eq_refl Hp).
    unfold consumed. now destruct (_ =? _)%N.
  - intros self chk rest Hrx.
    rewrite (@_read_frame self x00 chk [] rest [] Hrx eq_refl eq_refl).
    unfold consumed. now destruct (_ =? _)%N.
Qed.

Lemma read_shortest_payload_witness :
  (fst (_read (on_wire [x02; x01; x41; x41])) = Ret ([65%N], []) /\
   rx (inst (snd (_read (on_wire [x02; x01; x41; x41])))) = []) /\
  (fst (_read (on_wire [x02; x00; x00; x02])) = Raise IndexError /\
   rx (inst (snd (_read (on_wire [x02; x00; x00; x02])))) = [x02]).
Proof.
  split.
  - apply (proj1 read_shortest_payload (on_wire [x02; x01; x41; x41])
             x41 x41 []); reflexivity.
  - apply (proj2 read_shortest_payload (on_wire [x02; x00; x00; x02])
             x00 [x02]); reflexivity.
Defined.

(** C1, as stated, fails: the empty command has length 0, at most 10; its
    frame is 02 00 00, and [_read] raises [IndexError] on it instead of
    giving the command back. *)
Lemma empty_command_does_not_roundtrip :
  (len [] <= 10)%N /\
  tx (inst (snd (_send [] (on_wire [])))) = [[x02; x00; x00]] /\
  fst (_read (on_wire [x02; x00; x00])) = Raise IndexError /\
  ~ roundtrips [].
Proof.
  split; [discriminate|]. split; [reflexivity|]. split; [reflexivity|].
  intros H. destruct (H (on_wire [])) as [n [payload [chk [Htx Hrd]]]].
  destruct (Hrd (on_wire [x02; x00; x00]) []) as [st [body [Hr _]]].
  - cbn in Htx. rewrite app_nil_r. cbn. congruence.
  - discriminate Hr.
Qed.

(** C1, as the code has it: for every ASCII command of 1 to 10 characters,
    [_send] writes a frame from which [_read] recovers the command, as
    status character followed by body, and the checksum byte of the frame is
    the checksum of the recovered text, so that nothing is logged. *)
Theorem send_read_roundtrip (msg : str) :
  msg <> [] ->
  (len msg <= 10)%N ->
  Py.isascii msg = true ->
  roundtrips msg.
Proof.
  intros Hne Hlen Hascii self.
  assert (Hlt : Forall (fun c => (c < 128)%N) msg).
  { apply Forall_forall. intros c Hc. unfold Py.isascii in Hascii.
    rewrite forallb_forall in Hascii. now apply N.ltb_lt, Hascii. }
  assert (Hs : sendable msg).
  { split; [assumption|].
    apply Forall_impl with (P := fun c => (c < 128)%N);
      [intros a Ha; lia | exact Hlt]. }
  destruct (frame_shape Hs) as [n [bs [chk [E [Hn [Hbs Hchk]]]]]].
  exists n, bs, chk. split.
  - rewrite (_send_ok self Hs). unfold sent, frame. now rewrite E.
  - intros peer rest Hrx.
    assert (Hp : Py.utf8 bs = Some msg).
    { rewrite utf8_ascii, Hbs; [reflexivity|].
      rewrite <- Hbs in Hlt. now apply Forall_map in Hlt. }
    assert (Hn' : Byte.to_N n = N.of_nat (length bs)).
    { rewrite Hn. unfold len. now rewrite <- Hbs, length_map. }
    cbn [app] in Hrx. rewrite <- app_assoc in Hrx. cbn [app] in Hrx.
    rewrite (@_read_frame peer n chk bs rest msg Hrx Hn' Hp).
    destruct msg as [|c body]; [congruence|].
    exists [c], body. cbn [fst snd app]. rewrite Hchk, N.eqb_refl.
    repeat split; reflexivity.
Qed.

Lemma send_read_roundtrip_witness :
  lit "G=5000" <> [] /\ (len (lit "G=5000") <= 10)%N /\
  Py.isascii (lit "G=5000") = true /\ roundtrips (lit "G=5000").
Proof.
  assert (H1 : lit "G=5000" <> []) by discriminate.
  assert (H2 : (len (lit "G=5000") <= 10)%N) by discriminate.
  assert (H3 : Py.isascii (lit "G=5000") = true) by reflexivity.
  exact (conj H1 (conj H2 (conj H3 (send_read_roundtrip H1 H2 H3)))).
Defined.

(** ** [query] *)

(** The session after [query msg] received the reply with status [c]. *)
Lemma query_reply (msg : str) (self : STM100) (n chk : byte)
      (payload rest : list byte) (c : N) (body : str) :
  sendable msg ->
  rx (inst self) = x02 :: n :: payload ++ chk :: rest ->
  Byte.to_N n = N.of_nat (length payload) ->
  Py.utf8 payload = Some (c :: body) ->
  query msg self
  = (Ret body,
     set_statuscode (Some [c])
       (consumed rest (Byte.to_N chk =? _calc_checksum (c :: body))%N
                 (sent msg self))).
Proof.
  intros Hs Hrx Hn Hp. unfold query, bind at 1. rewrite (_send_ok self Hs).
  unfold bind at 1.
  rewrite (@_read_frame (sent msg self) n chk payload rest _ Hrx Hn Hp).
  reflexivity.
Qed.

(** C7: a query that raises, whether [_send] refused the command or
    [_read] could not decode a reply (no start byte, a timeout, a payload
    that is no text or is empty), leaves [statuscode] as it was; and a query
    that returns has set [statuscode] to the status that [_read] decoded
    from the reply. *)
Theorem query_failure_keeps_statuscode (msg : str) (self : STM100) :
  (forall e : exn,
      fst (query msg self) = Raise e ->
      statuscode (snd (query msg self)) = statuscode self) /\
  (forall ans : str,
      fst (query msg self) = Ret ans ->
      exists status : str,
        fst (_read (snd (_send msg self))) = Ret (status, ans) /\
        statuscode (snd (query msg self)) = Some status).
Proof.
  pose proof (_send_keeps_statuscode msg self) as Hsend.
  pose proof (_read_keeps_statuscode (snd (_send msg self))) as Hread.
  unfold query, bind.
  destruct (_send msg self) as [[k|e1] s1]; cbn [fst snd] in *.
  - destruct (_read s1) as [[[status ans']|e2] s2]; cbn [fst snd] in *.
    + split; [discriminate|]. intros ans H. injection H as <-.
      exists status. auto.
    + split; [|discriminate]. intros _ _. congruence.
  - split; [|discriminate]. intros _ _. exact Hsend.
Qed.

Lemma query_failure_keeps_statuscode_witness :
  fst (query (lit "S") (mkSTM100 (mkResource [x41; x02] []) [] (Some (lit "A")) None))
  = Raise (RuntimeError (lit "Received message without start byte")) /\
  statuscode
    (snd (query (lit "S")
            (mkSTM100 (mkResource [x41; x02] []) [] (Some (lit "A")) None)))
  = Some (lit "A").
Proof.
  split; [reflexivity|].
  exact (proj1 (query_failure_keeps_statuscode (lit "S")
                  (mkSTM100 (mkResource [x41; x02] []) [] (Some (lit "A")) None))
               _ eq_refl).
Defined.

(** C10, as stated, fails: the reply 02 02 42 FF 41 has the start byte, and
    the two payload bytes its length byte declares are read, but the
    payload is not UTF-8 text; [query] raises [UnicodeDecodeError] and
    [statuscode] stays what it was instead of becoming the first payload
    character [B]. *)
Lemma query_undecodable_reply_keeps_status :
  fst (query (lit "S")
         (mkSTM100 (mkResource [x02; x02; x42; xff; x41] []) []
                   (Some (lit "A")) None))
  = Raise UnicodeDecodeError /\
  statuscode
    (snd (query (lit "S")
            (mkSTM100 (mkResource [x02; x02; x42; xff; x41] []) []
                      (Some (lit "A")) None)))
  = Some (lit "A") /\
  Some (lit "A") <> Some [Byte.to_N x42].
Proof. repeat split. discriminate. Qed.

(** C10, as the code has it: when the reply to a query is a frame whose
    payload is UTF-8 text of at least one character, the query returns the
    body and [statuscode] is the first character of the payload, for every
    value of the checksum byte of the frame, matching or not. *)
Theorem query_sets_statuscode_despite_checksum
        (msg : str) (self : STM100) (n chk : byte)
        (payload rest : list byte) (c : N) (body : str) :
  sendable msg ->
  rx (inst self) = x02 :: n :: payload ++ chk :: rest ->
  Byte.to_N n = N.of_nat (length payload) ->
  Py.utf8 payload = Some (c :: body) ->
  fst (query msg self) = Ret body /\
  statuscode (snd (query msg self)) = Some [c].
Proof.
  intros Hs Hrx Hn Hp.
  rewrite (@query_reply msg self n chk payload rest c body Hs Hrx Hn Hp).
  unfold consumed. destruct (_ =? _)%N; split; reflexivity.
Qed.

Lemma query_sets_statuscode_despite_checksum_witness :
  (Byte.to_N xff <> _calc_checksum (lit "B12")) /\
  fst (query (lit "S")
         (mkSTM100 (mkResource [x02; x03; x42; x31; x32; xff] []) []
                   (Some (lit "A")) None))
  = Ret (lit "12") /\
  statuscode
    (snd (query (lit "S")
            (mkSTM100 (mkResource [x02; x03; x42; x31; x32; xff] []) []
                      (Some (lit "A")) None)))
  = Some (lit "B").
Proof.
  split; [discriminate|].
  apply (@query_sets_statuscode_despite_checksum (lit "S")
           (mkSTM100 (mkResource [x02; x03; x42; x31; x32; xff] []) []
                     (Some (lit "A")) None)
           x03 xff [x42; x31; x32] [] 66%N (lit "12")).
  - split; [discriminate|repeat constructor].
  - reflexivity.
  - reflexivity.
  - reflexivity.
Defined.

(** ** Boolean getters *)

Lemma str_eq_true (a b : str) : Py.str_eq a b = true <-> a = b.
Proof.
  unfold Py.str_eq. destruct (list_eq_dec N.eq_dec a b); split; congruence.
Qed.

Lemma str_eq_false (a b : str) : Py.str_eq a b = false <-> a <> b.
Proof.
  unfold Py.str_eq. destruct (list_eq_dec N.eq_dec a b); split; congruence.
Qed.

(** [ans in "!@"] holds for the four substrings of ["!@"], the empty string
    among them. *)
Lemma contains_sentinels (ans : str) :
  Py.contains (lit "!@") ans
  = Py.str_eq ans [] || Py.str_eq ans (lit "!") || Py.str_eq ans (lit "@")
    || Py.str_eq ans (lit "!@").
Proof.
  destruct ans as [|a [|b [|c l]]]; cbn -[N.eqb]; try reflexivity.
  - destruct (N.eqb_spec a 33), (N.eqb_spec a 64); subst;
      cbn; try reflexivity;
      unfold Py.str_eq; repeat destruct (list_eq_dec _ _ _);
      try reflexivity; congruence.
  - destruct (N.eqb_spec a 33), (N.eqb_spec b 64); subst;
      cbn; unfold Py.str_eq; repeat destruct (list_eq_dec _ _ _);
      try reflexivity; try congruence;
      destruct (N.eqb_spec a 64); unfold andb; try reflexivity; congruence.
  - unfold Py.str_eq; repeat destruct (list_eq_dec _ _ _); try congruence.
    destruct (a =? 33)%N, (b =? 64)%N, (a =? 64)%N; reflexivity.
Qed.

(** C4: what a boolean getter makes of a reply body.  It returns [True] for
    ["!"] and [False] for ["@"], and raises [AssertionError] for any other
    body except two: the empty body and the body ["!@"] pass the substring
    test [ans in "!@"] of the assertion and give [False]. *)
Theorem query_bool_accepts_substrings
        (cmd : str) (self : STM100) (n chk : byte)
        (payload rest : list byte) (c : N) (ans : str) :
  sendable cmd ->
  rx (inst self) = x02 :: n :: payload ++ chk :: rest ->
  Byte.to_N n = N.of_nat (length payload) ->
  Py.utf8 payload = Some (c :: ans) ->
  fst (_query_bool cmd self) = bool_of_reply cmd ans.
Proof.
  intros Hs Hrx Hn Hp. unfold _query_bool, bind at 1.
  rewrite (@query_reply cmd self n chk payload rest c ans Hs Hrx Hn Hp).
  unfold bind, assert, bool_of_reply. rewrite contains_sentinels.
  destruct (Py.str_eq ans []), (Py.str_eq ans (lit "!")),
    (Py.str_eq ans (lit "@")), (Py.str_eq ans (lit "!@")); reflexivity.
Qed.

Lemma query_bool_accepts_substrings_witness :
  fst (_query_bool (lit "K?") (on_wire [x02; x01; x41; x41]))
  = bool_of_reply (lit "K?") [] /\
  bool_of_reply (lit "K?") [] = Ret false /\
  fst (testmode (on_wire [x02; x01; x41; x41])) = Ret false /\
  fst (shutter (on_wire [x02; x03; x41; x21; x40; xa2])) = Ret false /\
  fst (testmode (on_wire [x02; x02; x41; x58; x99]))
  = Raise (AssertionError (lit "Unexpected response to query (K?)")).
Proof.
  split; [|repeat split; reflexivity].
  apply (@query_bool_accepts_substrings (lit "K?")
           (on_wire [x02; x01; x41; x41]) x01 x41 [x41] [] 65%N []).
  - split; [discriminate|repeat constructor].
  - reflexivity.
  - reflexivity.
  - reflexivity.
Defined.

(** ** The timer *)

Lemma split_no_sep (sep : N) (s : str) :
  ~ In sep s -> Py.split sep s = [s].
Proof.
  induction s as [|c s IH]; intros H; [reflexivity|]. cbn [Py.split].
  destruct (N.eqb_spec c sep) as [->|Hc].
  - exfalso. apply H. now left.
  - rewrite IH; [reflexivity|]. intros Hin. apply H. now right.
Qed.

Lemma split_one_sep (sep : N) (a b : str) :
  ~ In sep a -> ~ In sep b -> Py.split sep (a ++ sep :: b) = [a; b].
Proof.
  intros Ha Hb. induction a as [|c a IH]; cbn [app Py.split].
  - rewrite N.eqb_refl. now rewrite split_no_sep.
  - destruct (N.eqb_spec c sep) as [->|Hc].
    + exfalso. apply Ha. now left.
    + rewrite IH; [reflexivity|]. intros Hin. apply Ha. now right.
Qed.

Lemma isdigit_range (c : N) : Py.isdigit c = true <-> (48 <= c <= 57)%N.
Proof.
  unfold Py.isdigit, Py.in_range. rewrite andb_true_iff, !N.leb_le.
  reflexivity.
Qed.

Lemma digits_all (s : str) (acc : Z) (after_digit : bool) :
  Forall (fun c => Py.isdigit c = true) s ->
  s <> [] \/ after_digit = true ->
  Py.digits acc after_digit s
  = Some (fold_left (fun a c => (10 * a + Z.of_N (c - 48))%Z) s acc).
Proof.
  intros Hall. revert acc after_digit.
  induction Hall as [|c s Hc _ IH]; intros acc after_digit Hne.
  - destruct Hne as [Hne| ->]; [congruence|reflexivity].
  - cbn [Py.digits fold_left]. rewrite Hc. apply IH. now right.
Qed.

Lemma lstrip_digits (s : str) :
  Forall (fun c => Py.isdigit c = true) s -> Py.lstrip s = s.
Proof.
  intros [|c s' Hc _]; [reflexivity|]. cbn [Py.lstrip].
  apply isdigit_range in Hc.
  replace (Py.isspace c) with false; [reflexivity|].
  symmetry. unfold Py.isspace, Py.in_range. apply orb_false_iff. split.
  - apply andb_false_iff. right. apply N.leb_gt. lia.
  - apply N.eqb_neq. lia.
Qed.

(** [int] of a non-empty string of ASCII digits is the number it stands
    for. *)
Lemma int_str_digits (int_unicode : str -> result Z) (s : str) :
  s <> [] ->
  Forall (fun c => Py.isdigit c = true) s ->
  int_str int_unicode s = Ret (decimal s).
Proof.
  intros Hne Hall. unfold int_str.
  replace (Py.isascii s) with true.
  2:{ symmetry. unfold Py.isascii. apply forallb_forall. intros c Hc.
      rewrite Forall_forall in Hall. apply Hall, isdigit_range in Hc.
      apply N.ltb_lt. lia. }
  unfold Py.int_ascii, Py.strip. rewrite (lstrip_digits Hall).
  rewrite lstrip_digits by now apply Forall_rev.
  rewrite rev_involutive. destruct s as [|c s']; [congruence|].
  pose proof (Forall_inv Hall) as Hc. apply isdigit_range in Hc.
  replace (c =? 43)%N with false by (symmetry; apply N.eqb_neq; lia).
  replace (c =? 45)%N with false by (symmetry; apply N.eqb_neq; lia).
  rewrite digits_all; [reflexivity|assumption|now left].
Qed.

Lemma digits_no_colon (s : str) :
  Forall (fun c => Py.isdigit c = true) s -> ~ In 58%N s.
Proof.
  intros Hall Hin. rewrite Forall_forall in Hall.
  apply Hall, isdigit_range in Hin. lia.
Qed.

(** C5: the timer getter on the reply body [ans] of the query [W].
    ["01:30"] gives 90, and any body [MM:SS] of two non-empty strings of
    digits gives [60 * MM + SS]; a body whose first character is [>] gives
    [nan]; a body without [:] that does not start with [>] makes the getter
    raise: [ValueError] from unpacking the one piece [split] returns, or,
    when the body is empty, [IndexError] from [ans[0]]. *)
Theorem timer_parses
        (int_unicode : str -> result Z) (self : STM100) (n chk : byte)
        (payload rest : list byte) (c : N) (ans : str) :
  rx (inst self) = x02 :: n :: payload ++ chk :: rest ->
  Byte.to_N n = N.of_nat (length payload) ->
  Py.utf8 payload = Some (c :: ans) ->
  (ans = lit "01:30" ->
   fst (timer int_unicode self) = Ret (Fin (inject_Z 90))) /\
  (forall mm ss : str,
      mm <> [] -> ss <> [] ->
      Forall (fun d => Py.isdigit d = true) mm ->
      Forall (fun d => Py.isdigit d = true) ss ->
      ans = mm ++ lit ":" ++ ss ->
      fst (timer int_unicode self)
      = Ret (Fin (inject_Z (60 * decimal mm + decimal ss)))) /\
  (forall r : str,
      ans = lit ">" ++ r -> fst (timer int_unicode self) = Ret nan) /\
  (~ In 58%N ans ->
   (forall r : str, ans <> lit ">" ++ r) ->
   fst (timer int_unicode self)
   = Raise (match ans with
            | [] => IndexError
            | _ :: _ =>
                ValueError
                  (lit "not enough values to unpack (expected 2, got 1)")
            end)).
Proof.
  intros Hrx Hn Hp.
  assert (Hs : sendable (lit "W"))
    by (split; [discriminate|repeat constructor]).
  assert (Hgen : forall mm ss : str,
      mm <> [] -> ss <> [] ->
      Forall (fun d => Py.isdigit d = true) mm ->
      Forall (fun d => Py.isdigit d = true) ss ->
      ans = mm ++ lit ":" ++ ss ->
      fst (timer int_unicode self)
      = Ret (Fin (inject_Z (60 * decimal mm + decimal ss)))).
  { intros mm ss Hmm Hss Dmm Dss ->. unfold timer, bind at 1.
    rewrite (@query_reply (lit "W") self n chk payload rest c _ Hs Hrx Hn Hp).
    destruct mm as [|d mm']; [congruence|].
    unfold bind at 1, lift at 1. cbn [app Py.item0].
    pose proof (Forall_inv Dmm) as Hd. apply isdigit_range in Hd.
    replace (Py.str_eq [d] (lit ">")) with false
      by (symmetry; apply str_eq_false; intros E; injection E; lia).
    unfold bind at 1, lift at 1.
    change (d :: mm' ++ lit ":" ++ ss) with ((d :: mm') ++ 58%N :: ss).
    rewrite split_one_sep by now apply digits_no_colon.
    cbn [Py.unpack2]. unfold bind, lift.
    rewrite (int_str_digits int_unicode Hmm Dmm).
    rewrite (int_str_digits int_unicode Hss Dss). reflexivity. }
  split; [|split; [exact Hgen|split]].
  - intros ->. apply (Hgen (lit "01") (lit "30")); try discriminate;
      try reflexivity; repeat constructor.
  - intros r ->. unfold timer, bind at 1.
    rewrite (@query_reply (lit "W") self n chk payload rest c _ Hs Hrx Hn Hp).
    reflexivity.
  - intros Hno Hgt. unfold timer, bind at 1.
    rewrite (@query_reply (lit "W") self n chk payload rest c _ Hs Hrx Hn Hp).
    destruct ans as [|d ans']; [reflexivity|].
    unfold bind at 1, lift at 1. cbn [Py.item0].
    replace (Py.str_eq [d] (lit ">")) with false.
    2:{ symmetry. apply str_eq_false. intros E. injection E as ->.
        now apply (Hgt ans'). }
    unfold bind at 1, lift at 1. rewrite split_no_sep by assumption.
    reflexivity.
Qed.

Lemma timer_parses_witness :
  fst (timer (fun _ => Raise (ValueError (lit "invalid literal for int() with base 10")))
         (on_wire [x02; x06; x41; x30; x31; x3a; x33; x30; x3f]))
  = Ret (Fin (inject_Z 90)) /\
  fst (timer (fun _ => Raise (ValueError (lit "invalid literal for int() with base 10")))
         (on_wire [x02; x08; x41; x62; x61; x64; x74; x65; x78; x74; x3a]))
  = Raise (ValueError (lit "not enough values to unpack (expected 2, got 1)"))
  /\
  fst (timer (fun _ => Raise (ValueError (lit "invalid literal for int() with base 10")))
         (on_wire [x02; x01; x41; x41]))
  = Raise IndexError.
Proof.
  split; [|split].
  - apply (@timer_parses _ (on_wire [x02; x06; x41; x30; x31; x3a; x33; x30; x3f])
             x06 x3f [x41; x30; x31; x3a; x33; x30] [] 65%N (lit "01:30")
             eq_refl eq_refl eq_refl).
    reflexivity.
  - apply (@timer_parses _
             (on_wire [x02; x08; x41; x62; x61; x64; x74; x65; x78; x74; x3a])
             x08 x3a [x41; x62; x61; x64; x74; x65; x78; x74] [] 65%N
             (lit "badtext") eq_refl eq_refl eq_refl).
    + cbv. intuition discriminate.
    + intros r. discriminate.
  - apply (@timer_parses _ (on_wire [x02; x01; x41; x41])
             x01 x41 [x41] [] 65%N [] eq_refl eq_refl eq_refl).
    + intros [].
    + intros r. discriminate.
Defined.

(** ** The setpoint setter *)

Lemma dec_length (fuel : nat) :
  forall (n : N) (acc : str) (k : nat),
    (n < 10 ^ N.of_nat k)%N -> (1 <= k)%nat ->
    (length (Py.dec fuel n acc) <= length acc + k)%nat.
Proof.
  induction fuel as [|fuel IH]; intros n acc k Hn Hk; cbn [Py.dec].
  - lia.
  - destruct (N.eqb_spec (n / 10) 0) as [Hz|Hnz]; [cbn [length]; lia|].
    destruct k as [|[|k]]; [lia| |].
    + exfalso. apply Hnz. apply N.div_small. exact Hn.
    + specialize (IH (n / 10)%N ((48 + n mod 10)%N :: acc) (S k)).
      cbn [length] in IH. etransitivity; [apply IH|]; try lia.
      apply N.Div0.div_lt_upper_bound.
      rewrite (Nat2N.inj_succ (S k)), N.pow_succ_r' in Hn. exact Hn.
Qed.

Lemma dec_digits (fuel : nat) :
  forall (n : N) (acc : str),
    Forall (fun c => Py.isdigit c = true) acc ->
    Forall (fun c => Py.isdigit c = true) (Py.dec fuel n acc).
Proof.
  induction fuel as [|fuel IH]; intros n acc Hacc; cbn [Py.dec].
  - exact Hacc.
  - assert (Hd : Forall (fun c => Py.isdigit c = true)
                        ((48 + n mod 10)%N :: acc)).
    { constructor; [|exact Hacc]. apply isdigit_range.
      assert (n mod 10 < 10)%N by (apply N.mod_lt; discriminate).
      generalize dependent (n mod 10)%N. intros; lia. }
    destruct (n / 10 =? 0)%N; [exact Hd|]. now apply IH.
Qed.

Lemma format_d_setpoint (k : Z) :
  (0 <= k <= 9999999)%Z ->
  (length (Py.format_d k) <= 7)%nat /\
  Forall (fun c => Py.isdigit c = true) (Py.format_d k).
Proof.
  intros Hk. destruct k as [|p|p]; [| |lia].
  - split; [cbn; lia|repeat constructor].
  - unfold Py.format_d. split.
    + apply (@dec_length _ (Npos p) [] 7%nat); [|lia].
      change (10 ^ N.of_nat 7)%N with 10000000%N. lia.
    + apply dec_digits. constructor.
Qed.

Lemma setpoint_command_sendable (k : Z) :
  (0 <= k <= 9999999)%Z -> sendable (lit "G=" ++ Py.format_d k).
Proof.
  intros Hk. destruct (format_d_setpoint Hk) as [Hlen Hdig]. split.
  - unfold len. cbn [lit map list_ascii_of_string app length]. lia.
  - cbn [lit map list_ascii_of_string app].
    repeat (constructor; [reflexivity|]).
    apply Forall_impl with (P := fun c => Py.isdigit c = true);
      [|exact Hdig].
    intros c Hc. apply isdigit_range in Hc. lia.
Qed.

(** A query with a sendable command writes the frame of the command, and
    nothing else, whatever the reply is. *)
Lemma query_tx (msg : str) (self : STM100) :
  sendable msg ->
  tx (inst (snd (query msg self))) = tx (inst self) ++ [frame msg].
Proof.
  intros Hs. unfold query, bind at 1. rewrite (_send_ok self Hs).
  pose proof (_read_keeps_tx (sent msg self)) as Hr. unfold bind.
  destruct (_read (sent msg self)) as [[[status ans]|e] s']; exact Hr.
Qed.

Lemma setpoint_assert (value : number) :
  Py.ge value 0 && Py.le value 9999999 = true <-> in_setpoint_range value.
Proof.
  destruct value as [q| | |]; cbn [Py.ge Py.le in_setpoint_range andb];
    try (split; [discriminate|tauto]).
  rewrite andb_true_iff, !Qle_bool_iff. reflexivity.
Qed.

Lemma int_number_setpoint (q : Q) :
  0 <= q -> q <= inject_Z 9999999 ->
  (0 <= Z.quot (Qnum q) (Zpos (Qden q)) <= 9999999)%Z.
Proof.
  destruct q as [a b]. unfold Qle. cbn [Qnum Qden inject_Z]. intros H0 H1.
  assert (Ha : (0 <= a)%Z) by lia.
  rewrite Z.quot_div_nonneg by lia. split.
  - apply Z.div_pos; lia.
  - apply Z.div_le_upper_bound; lia.
Qed.

Lemma pos_lt_pow2_size (p : positive) :
  (Npos p < 2 ^ N.of_nat (Pos.size_nat p))%N.
Proof.
  induction p as [p IH|p IH|]; cbn [Pos.size_nat];
    rewrite ?Nat2N.inj_succ, ?N.pow_succ_r'; [| |reflexivity];
    change (Npos p~1) with (2 * Npos p + 1)%N
    || change (Npos p~0) with (2 * Npos p)%N; lia.
Qed.

Lemma decimal_snoc (ds : str) (d : N) :
  decimal (ds ++ [d]) = (10 * decimal ds + Z.of_N (d - 48))%Z.
Proof. unfold decimal. now rewrite fold_left_app. Qed.

Lemma dec_value (fuel : nat) :
  forall (n : N) (acc : str),
    (n < 10 ^ N.of_nat (S fuel))%N ->
    exists ds : str,
      Py.dec (S fuel) n acc = ds ++ acc /\ ds <> [] /\
      decimal ds = Z.of_N n.
Proof.
  induction fuel as [|fuel IH]; intros n acc Hn.
  - cbn [Py.dec]. change (10 ^ N.of_nat 1)%N with 10%N in Hn.
    rewrite (N.div_small n 10 Hn), (N.mod_small n 10 Hn). cbn [N.eqb].
    exists [(48 + n)%N]. repeat split; [discriminate|].
    unfold decimal. cbn [fold_left]. lia.
  - remember (S fuel) as f eqn:Ef. cbn [Py.dec].
    destruct (N.eqb_spec (n / 10) 0) as [Hz|Hnz].
    + exists [(48 + n mod 10)%N]. repeat split; [discriminate|].
      unfold decimal. cbn [fold_left].
      pose proof (N.div_mod n 10 ltac:(discriminate)) as Hdm.
      rewrite Hz in Hdm.
      assert (n mod 10 < 10)%N by (apply N.mod_lt; discriminate).
      generalize dependent (n mod 10)%N. intros; lia.
    + subst f.
      destruct (IH (n / 10)%N ((48 + n mod 10)%N :: acc)) as [ds [E [_ Hv]]].
      { apply N.Div0.div_lt_upper_bound.
        rewrite (Nat2N.inj_succ (S fuel)), N.pow_succ_r' in Hn. exact Hn. }
      exists (ds ++ [(48 + n mod 10)%N]). rewrite E, <- app_assoc.
      repeat split; [now destruct ds|].
      rewrite decimal_snoc, Hv.
      pose proof (N.div_mod n 10 ltac:(discriminate)) as Hdm.
      assert (n mod 10 < 10)%N by (apply N.mod_lt; discriminate).
      generalize dependent (n mod 10)%N.
      generalize dependent (n / 10)%N. intros; lia.
Qed.

(** The digits of a non-negative integer stand for it. *)
Lemma format_d_decimal (k : Z) :
  (0 <= k)%Z -> Py.format_d k <> [] /\ decimal (Py.format_d k) = k.
Proof.
  intros Hk. destruct k as [|p|p]; [split; [discriminate|reflexivity]| |lia].
  unfold Py.format_d.
  destruct (@dec_value (N.size_nat (Npos p)) (Npos p) []) as [ds [E [Hne Hv]]].
  - eapply N.lt_le_trans; [apply pos_lt_pow2_size|]. cbn [N.size_nat].
    etransitivity; [apply N.pow_le_mono_l with (b := 10%N); lia|].
    apply N.pow_le_mono_r; lia.
  - rewrite E, app_nil_r. split; [exact Hne|]. rewrite Hv. reflexivity.
Qed.

Lemma dec_head (fuel : nat) :
  forall (n : N) (acc : str),
    (n < 10 ^ N.of_nat (S fuel))%N -> n <> 0%N ->
    hd 48%N (Py.dec (S fuel) n acc) <> 48%N.
Proof.
  induction fuel as [|fuel IH]; intros n acc Hn Hnz.
  - cbn [Py.dec]. change (10 ^ N.of_nat 1)%N with 10%N in Hn.
    rewrite (N.div_small n 10 Hn), (N.mod_small n 10 Hn). cbn [N.eqb hd].
    lia.
  - remember (S fuel) as f eqn:Ef. cbn [Py.dec].
    destruct (N.eqb_spec (n / 10) 0) as [Hz|Hq].
    + cbn [hd]. pose proof (N.div_mod n 10 ltac:(discriminate)) as Hdm.
      rewrite Hz in Hdm. generalize dependent (n mod 10)%N. intros; lia.
    + subst f. apply IH; [|exact Hq].
      apply N.Div0.div_lt_upper_bound.
      rewrite (Nat2N.inj_succ (S fuel)), N.pow_succ_r' in Hn. exact Hn.
Qed.

(** The digits of a non-negative integer do not begin with a zero. *)
Lemma format_d_canonical (k : Z) :
  (0 <= k)%Z -> no_leading_zero (Py.format_d k) = true.
Proof.
  intros Hk. destruct k as [|p|p]; [reflexivity| |lia].
  unfold Py.format_d.
  assert (Hlt : (N.pos p < 10 ^ N.of_nat (S (N.size_nat (N.pos p))))%N).
  { eapply N.lt_le_trans; [apply pos_lt_pow2_size|]. cbn [N.size_nat].
    etransitivity; [apply N.pow_le_mono_l with (b := 10%N); lia|].
    apply N.pow_le_mono_r; lia. }
  pose proof (@dec_head (N.size_nat (N.pos p)) (N.pos p) [] Hlt
                ltac:(discriminate)) as Hh.
  destruct (Py.dec _ _ _) as [|d [|d' r]]; cbn [hd no_leading_zero] in *.
  - now contradiction Hh.
  - reflexivity.
  - now apply negb_true_iff, N.eqb_neq.
Qed.

Lemma trunc_bounds (q : Q) :
  0 <= q ->
  inject_Z (Z.quot (Qnum q) (Zpos (Qden q))) <= q /\
  q < inject_Z (Z.quot (Qnum q) (Zpos (Qden q)) + 1).
Proof.
  destruct q as [a b]. unfold Qle, Qlt. cbn [Qnum Qden inject_Z].
  intros H0. assert (Ha : (0 <= a)%Z) by lia.
  rewrite Z.quot_div_nonneg by lia.
  pose proof (Z.div_mod a (Zpos b) ltac:(lia)) as Hdm.
  pose proof (Z.mod_pos_bound a (Zpos b) ltac:(lia)) as Hm.
  generalize dependent (a mod Zpos b)%Z.
  generalize dependent (a / Zpos b)%Z. intros; nia.
Qed.

(** C6: the setpoint setter raises [AssertionError] ("Setpoint out of
    range") for every value that is not in [0, 9999999], among them -1,
    10000000, the infinities and [nan], and then the session is as it was:
    nothing was written or read.  For a value [q] in range the first and
    only write is the wire frame of the command [G=] followed by decimal
    digits without a leading zero, and the integer these digits stand for
    is [q] without its fraction: [k <= q < k + 1].  For 5000 the frame is
    that of [G=5000]. *)
Theorem setpoint_setter_checks_range :
  (forall (value : number) (self : STM100),
      ~ in_setpoint_range value ->
      setpoint_setter value self
      = (Raise (AssertionError (lit "Setpoint out of range")), self)) /\
  (~ in_setpoint_range (Fin (inject_Z (-1))) /\
   ~ in_setpoint_range (Fin (inject_Z 10000000))) /\
  (forall (q : Q) (self : STM100),
      in_setpoint_range (Fin q) ->
      exists (digits : str) (fr : list byte),
        tx (inst (snd (setpoint_setter (Fin q) self)))
        = tx (inst self) ++ [fr] /\
        is_frame (lit "G=" ++ digits) fr /\
        no_leading_zero digits = true /\
        Forall (fun c => Py.isdigit c = true) digits /\
        inject_Z (decimal digits) <= q /\
        q < inject_Z (decimal digits + 1)) /\
  (forall self : STM100,
      tx (inst (snd (setpoint_setter (Fin (inject_Z 5000)) self)))
      = tx (inst self)
        ++ [[x02; x06; x47; x3d; x35; x30; x30; x30; x49]] /\
      lit "G=5000" = map Byte.to_N [x47; x3d; x35; x30; x30; x30]).
Proof.
  assert (Hin : forall (q : Q) (self : STM100),
      in_setpoint_range (Fin q) ->
      tx (inst (snd (setpoint_setter (Fin q) self)))
      = tx (inst self)
        ++ [frame (lit "G=" ++
                   Py.format_d (Z.quot (Qnum q) (Zpos (Qden q))))]).
  { intros q self Hr. pose proof (proj2 (setpoint_assert (Fin q)) Hr) as Ha.
    destruct Hr as [H0 H1].
    pose proof (int_number_setpoint H0 H1) as Hk.
    unfold setpoint_setter. rewrite Ha.
    pose proof (query_tx self (setpoint_command_sendable Hk)) as Htx.
    unfold assert, bind, ret, lift. cbn [Py.int_number].
    destruct (query _ self) as [[ans|e] s']; exact Htx. }
  split; [|split; [|split]].
  - intros value self Hr. unfold setpoint_setter.
    destruct (Py.ge value 0 && Py.le value 9999999) eqn:Ha.
    + exfalso. now apply Hr, setpoint_assert.
    + reflexivity.
  - split; intros [H0 H1]; [apply H0|apply H1]; reflexivity.
  - intros q self Hr. pose proof Hr as [H0 H1].
    pose proof (int_number_setpoint H0 H1) as Hk.
    set (k := Z.quot (Qnum q) (Zpos (Qden q))) in *.
    destruct (format_d_setpoint Hk) as [_ Hdig].
    destruct (@format_d_decimal k ltac:(lia)) as [Hne Hv].
    destruct (trunc_bounds H0) as [Hlo Hhi]. fold k in Hlo, Hhi.
    exists (Py.format_d k), (frame (lit "G=" ++ Py.format_d k)).
    split; [apply (Hin q self Hr)|].
    split; [apply frame_is_frame, setpoint_command_sendable, Hk|].
    split; [apply format_d_canonical; lia|].
    rewrite Hv. auto.
  - intros self. split; [|reflexivity].
    apply (Hin (inject_Z 5000) self). split; discriminate.
Qed.

Lemma setpoint_setter_checks_range_witness :
  setpoint_setter (Fin (inject_Z (-1))) (on_wire [x02; x01; x41; x41])
  = (Raise (AssertionError (lit "Setpoint out of range")),
     on_wire [x02; x01; x41; x41]) /\
  setpoint_setter (Fin (inject_Z 10000000)) (on_wire [x02; x01; x41; x41])
  = (Raise (AssertionError (lit "Setpoint out of range")),
     on_wire [x02; x01; x41; x41]) /\
  setpoint_setter NaN (on_wire [x02; x01; x41; x41])
  = (Raise (AssertionError (lit "Setpoint out of range")),
     on_wire [x02; x01; x41; x41]) /\
  exists (digits : str) (fr : list byte),
    tx (inst (snd (setpoint_setter (Fin (50007 # 10))
                     (on_wire [x02; x01; x41; x41]))))
    = tx (inst (on_wire [x02; x01; x41; x41])) ++ [fr] /\
    is_frame (lit "G=" ++ digits) fr /\
    no_leading_zero digits = true /\
    Forall (fun c => Py.isdigit c = true) digits /\
    inject_Z (decimal digits) <= 50007 # 10 /\
    50007 # 10 < inject_Z (decimal digits + 1).
Proof.
  pose proof setpoint_setter_checks_range as [Hout [[Hneg Hbig] [Hin _]]].
  split; [|split; [|split]].
  - apply Hout, Hneg.
  - apply Hout, Hbig.
  - apply Hout. intros [].
  - apply Hin. split; discriminate.
Defined.

Example setpoint_5000_7 :
  tx (inst (snd (setpoint_setter (Fin (50007 # 10)) (on_wire []))))
  = [[x02; x06; x47; x3d; x35; x30; x30; x30; x49]].
Proof. reflexivity. Qed.

(** ** The film table *)

Section Films.

Variable float_str : str -> option number.

Lemma _query_float_state (cmd : str) (self : STM100) :
  snd (_query_float float_str cmd self) = snd (query cmd self).
Proof.
  unfold _query_float, try_except_ValueError, bind, lift, float, ret.
  destruct (query cmd self) as [[ans|e] s]; cbn [snd].
  - now destruct (float_str ans).
  - now destruct (isinstance_ValueError e).
Qed.

Lemma film_command_sendable (f : Z) (kv : string * str) :
  In f (Py.range 1 10) -> In kv params -> sendable (film_command f (snd kv)).
Proof.
  intros Hf Hkv. cbv [Py.range seq map Nat.sub] in Hf. cbv [params] in Hkv.
  cbn [In] in Hf, Hkv.
  repeat (destruct Hf as [<-|Hf]); try contradiction;
    repeat (destruct Hkv as [<-|Hkv]); try contradiction;
    (split; [discriminate|repeat constructor]).
Qed.

(** One slot: when the comprehension returns, it has issued one query per
    item, in order, and built a record with the keys of the items. *)
Lemma slot_queries (f : Z) (items : list (string * str)) :
  (forall kv, In kv items -> sendable (film_command f (snd kv))) ->
  forall (self self' : STM100) (d : film),
    dict_comprehension
      (fun v => _query_float float_str (v ++ Py.format_d f ++ lit "?"))
      items self = (Ret d, self') ->
    tx (inst self')
    = tx (inst self) ++ map (fun kv => frame (film_command f (snd kv))) items
    /\ map fst d = map fst items
    /\ _films self' = _films self.
Proof.
  induction items as [|[k v] items IH]; intros Hs self self' d H.
  - injection H as <- <-. cbn. now rewrite app_nil_r.
  - cbn [dict_comprehension] in H. unfold bind at 1 in H.
    pose proof (_query_float_state (v ++ Py.format_d f ++ lit "?") self)
      as Hst.
    destruct (_query_float float_str _ self) as [[x|e] s1]; [|discriminate].
    cbn [snd] in Hst. unfold bind at 1 in H.
    destruct (dict_comprehension _ items s1) as [[d'|e] s2] eqn:E;
      [|discriminate].
    injection H as <- <-.
    destruct (IH (fun kv Hin => Hs kv (or_intror Hin)) s1 s2 d' E)
      as [Htx [Hk Hf]].
    cbn [map fst snd]. rewrite Htx, Hk, Hf, Hst.
    change (v ++ Py.format_d f ++ lit "?") with (film_command f v).
    pose proof (query_tx self (Hs (k, v) (or_introl eq_refl))) as Hq.
    cbn [snd] in Hq. rewrite Hq, query_keeps_films, <- app_assoc. auto.
Qed.

(** The loop over the slots [l]: when it returns, it has issued the queries
    of every slot of [l], slot after slot, and appended one record per slot
    to [_films]. *)
Lemma slots_loop (l : list Z) :
  (forall f, In f l -> In f (Py.range 1 10)) ->
  forall (self self' : STM100) (done : list film),
    for_in l (fun f =>
      d <- dict_comprehension
             (fun v => _query_float float_str (v ++ Py.format_d f ++ lit "?"))
             params ;;
      films_append d) self = (Ret tt, self') ->
    _films self = Some done ->
    tx (inst self')
    = tx (inst self)
      ++ flat_map (fun f => map (fun kv => frame (film_command f (snd kv)))
                                params) l
    /\ exists ds : list film,
        _films self' = Some (done ++ ds) /\
        length ds = length l /\
        Forall (fun d => map fst d = film_keys) ds.
Proof.
  induction l as [|f l IH]; intros Hl self self' done H Hdone.
  - injection H as <-. cbn. rewrite app_nil_r. split; [reflexivity|].
    exists []. rewrite app_nil_r. auto.
  - cbn [for_in] in H. unfold bind at 1 2 in H.
    destruct (dict_comprehension _ params self) as [[d|e] s1] eqn:E;
      [|discriminate].
    apply slot_queries in E.
    2:{ intros kv Hkv. apply film_command_sendable; [|exact Hkv].
        apply Hl. now left. }
    destruct E as [Htx [Hk Hf]]. unfold films_append in H.
    rewrite Hf, Hdone in H.
    destruct (IH (fun g Hg => Hl g (or_intror Hg)) _ self' (done ++ [d]) H
                 eq_refl) as [Htx' [ds [Hfs [Hlen Hkeys]]]].
    cbn [inst set_films tx] in Htx'. split.
    + rewrite Htx', Htx. cbn [flat_map]. now rewrite !app_assoc.
    + exists (d :: ds). rewrite Hfs, <- app_assoc. cbn [app length].
      repeat split; auto.
Qed.

Lemma _query_float_reply (r : reply) (cmd : str) (self : STM100)
      (rest : list byte) :
  sendable cmd ->
  decodes r = true ->
  rx (inst self) = on_the_wire r ++ rest ->
  exists self' : STM100,
    _query_float float_str cmd self = (Ret (float_of_reply float_str r), self')
    /\ rx (inst self') = rest
    /\ _films self' = _films self.
Proof.
  intros Hs Hd Hrx. destruct r as [n pl chk].
  unfold decodes in Hd. cbn [length_byte payload] in Hd.
  apply andb_true_iff in Hd. destruct Hd as [Hn Hp]. apply N.eqb_eq in Hn.
  destruct (Py.utf8 pl) as [[|c body]|] eqn:Hu; try discriminate.
  unfold on_the_wire in Hrx. cbn [length_byte payload checksum_byte] in Hrx.
  cbn [app] in Hrx. rewrite <- app_assoc in Hrx. cbn [app] in Hrx.
  unfold _query_float, try_except_ValueError, bind at 1.
  rewrite (@query_reply cmd self n chk pl rest c body Hs Hrx Hn Hu).
  unfold float_of_reply, body_of. cbn [payload]. rewrite Hu. cbn [tl].
  unfold lift, float, ret.
  eexists. split; [destruct (float_str body); reflexivity|].
  unfold consumed. destruct (_ =? _)%N; split; reflexivity.
Qed.

(** One slot, answered: the comprehension consumes one reply per item and
    returns the record of their values. *)
Lemma slot_replies (f : Z) (items : list (string * str)) :
  (forall kv, In kv items -> sendable (film_command f (snd kv))) ->
  forall (rs : list reply) (self : STM100) (rest : list byte),
    length rs = length items ->
    forallb decodes rs = true ->
    rx (inst self) = concat (map on_the_wire rs) ++ rest ->
    exists self' : STM100,
      dict_comprehension
        (fun v => _query_float float_str (v ++ Py.format_d f ++ lit "?"))
        items self
      = (Ret (combine (map fst items) (map (float_of_reply float_str) rs)),
         self')
      /\ rx (inst self') = rest
      /\ _films self' = _films self.
Proof.
  induction items as [|[k v] items IH]; intros Hs rs self rest Hlen Hd Hrx.
  - destruct rs; [|discriminate]. exists self. cbn in *. auto.
  - destruct rs as [|r rs]; [discriminate|]. cbn [forallb] in Hd.
    apply andb_true_iff in Hd. destruct Hd as [Hr Hd].
    cbn [map concat] in Hrx. rewrite <- app_assoc in Hrx.
    destruct (@_query_float_reply r (film_command f v) self _
                (Hs (k, v) (or_introl eq_refl)) Hr Hrx)
      as [s1 [E1 [Hrx1 Hf1]]].
    destruct (IH (fun kv Hin => Hs kv (or_intror Hin)) rs s1 rest)
      as [s2 [E2 [Hrx2 Hf2]]]; auto.
    exists s2. cbn [dict_comprehension]. unfold bind at 1.
    change (v ++ Py.format_d f ++ lit "?") with (film_command f v).
    rewrite E1. unfold bind at 1. rewrite E2. cbn [map fst combine ret].
    repeat split; congruence.
Qed.

(** The loop over the slots [l], answered: it consumes three replies per
    slot and appends the records made of them to [_films]. *)
Lemma slots_loop_replies (l : list Z) :
  (forall f, In f l -> In f (Py.range 1 10)) ->
  forall (rs : list reply) (self : STM100) (rest : list byte)
         (done : list film),
    length rs = (3 * length l)%nat ->
    forallb decodes rs = true ->
    rx (inst self) = concat (map on_the_wire rs) ++ rest ->
    _films self = Some done ->
    exists self' : STM100,
      for_in l (fun f =>
        d <- dict_comprehension
               (fun v => _query_float float_str
                           (v ++ Py.format_d f ++ lit "?"))
               params ;;
        films_append d) self = (Ret tt, self')
      /\ rx (inst self') = rest
      /\ _films self' = Some (done ++ films_of_replies float_str rs).
Proof.
  induction l as [|f l IH]; intros Hl rs self rest done Hlen Hd Hrx Hdone.
  - destruct rs; [|discriminate]. exists self. cbn in *.
    rewrite app_nil_r. auto.
  - destruct rs as [|r1 [|r2 [|r3 rs]]]; try (cbn [length] in Hlen; lia).
    cbn [forallb] in Hd. rewrite !andb_true_iff in Hd.
    destruct Hd as [H1 [H2 [H3 Hd]]].
    destruct (@slot_replies f params
                (fun kv Hkv => film_command_sendable (Hl f (or_introl eq_refl))
                                                     Hkv)
                [r1; r2; r3] self (concat (map on_the_wire rs) ++ rest))
      as [s1 [E1 [Hrx1 Hf1]]].
    + reflexivity.
    + cbn [forallb]. now rewrite H1, H2, H3.
    + rewrite Hrx. cbn [map concat]. rewrite app_nil_r, <- !app_assoc.
      reflexivity.
    + destruct (IH (fun g Hg => Hl g (or_intror Hg)) rs
                   (set_films (Some (done ++ [combine (map fst params)
                      (map (float_of_reply float_str) [r1; r2; r3])])) s1)
                   rest
                   (done ++ [combine (map fst params)
                      (map (float_of_reply float_str) [r1; r2; r3])]))
        as [s2 [E2 [Hrx2 Hf2]]]; auto.
      * cbn [length] in Hlen. lia.
      * exists s2. cbn [for_in]. unfold bind at 1 2. rewrite E1.
        unfold films_append at 1. rewrite Hf1, Hdone.
        split; [exact E2|]. split; [exact Hrx2|].
        rewrite Hf2, <- app_assoc. reflexivity.
Qed.

End Films.

(** C9: the films getter.  A call that returns has issued exactly 27
    queries, [j<n>?], [k<n>?] and [o<n>?] (density, zfactor, tooling) for
    [n] from 1 to 9 in this order and for no other slot, and returns the
    list kept in [_films]: 9 records with the keys density, zfactor and
    tooling.  It does return when the instrument answers each query with a
    reply that decodes, and the records are then made of the replies in the
    order of the queries, three per slot. *)
Theorem films_issues_27_queries (float_str : str -> option number) :
  (length film_commands = 27%nat /\
   film_commands
   = map lit ["j1?"; "k1?"; "o1?"; "j2?"; "k2?"; "o2?"; "j3?"; "k3?"; "o3?";
              "j4?"; "k4?"; "o4?"; "j5?"; "k5?"; "o5?"; "j6?"; "k6?"; "o6?";
              "j7?"; "k7?"; "o7?"; "j8?"; "k8?"; "o8?"; "j9?"; "k9?"; "o9?"
             ]%string) /\
  (forall (self self' : STM100) (r : option (list film)),
      films float_str self = (Ret r, self') ->
      tx (inst self') = tx (inst self) ++ map frame film_commands /\
      exists l : list film,
        r = Some l /\ _films self' = Some l /\ length l = 9%nat /\
        Forall (fun d => map fst d = film_keys) l) /\
  (forall (self : STM100) (rs : list reply) (rest : list byte),
      length rs = 27%nat ->
      forallb decodes rs = true ->
      rx (inst self) = concat (map on_the_wire rs) ++ rest ->
      fst (films float_str self) = Ret (Some (films_of_replies float_str rs))
      /\ length (films_of_replies float_str rs) = 9%nat
      /\ rx (inst (snd (films float_str self))) = rest).
Proof.
  split; [split; reflexivity|]. split.
  - intros self self' r H. unfold films, query_films in H.
    set (loop := for_in _ _) in H. unfold bind in H. cbn [fst snd] in H.
    destruct (loop (set_films (Some []) self)) as [[[]|e] s1] eqn:E;
      [|discriminate].
    injection H as <- <-. subst loop.
    apply (@slots_loop float_str (Py.range 1 10) (fun f Hf => Hf)
             (set_films (Some []) self) s1 []) in E; [|reflexivity].
    destruct E as [Htx [ds [Hfs [Hlen Hkeys]]]]. split.
    + rewrite Htx. reflexivity.
    + exists ds. rewrite Hfs. auto.
  - intros self rs rest Hlen Hd Hrx.
    destruct (@slots_loop_replies float_str (Py.range 1 10) (fun f Hf => Hf)
                rs (set_films (Some []) self) rest [])
      as [s1 [E [Hrx1 Hfs]]]; auto.
    unfold films, query_films. set (loop := for_in _ _) in *.
    unfold bind. cbn [fst snd]. rewrite E. cbn [fst snd]. rewrite Hfs.
    repeat split; auto.
    do 27 (destruct rs as [|? rs]; [discriminate|]).
    destruct rs; [reflexivity|discriminate].
Qed.

Lemma films_issues_27_queries_witness :
  fst (films float_whole (on_wire (concat (map on_the_wire example_replies))))
  = Ret (Some (films_of_replies float_whole example_replies))
  /\ length (films_of_replies float_whole example_replies) = 9%nat
  /\ rx (inst (snd (films float_whole
                      (on_wire (concat (map on_the_wire example_replies))))))
     = [].
Proof.
  apply (proj2 (proj2 (films_issues_27_queries float_whole))
               (on_wire (concat (map on_the_wire example_replies)))
               example_replies []);
    reflexivity.
Defined.

Example films_example :
  fst (films float_whole (on_wire (concat (map on_the_wire example_replies))))
  = Ret (Some
      (map (fun n => [("density"%string, Fin (inject_Z n));
                      ("zfactor"%string, Fin (inject_Z 2));
                      ("tooling"%string, NaN)])
           [1; 2; 3; 4; 5; 6; 7; 8; 9]%Z)).
Proof. reflexivity. Qed.

(** ** More examples *)

Example format_f_examples :
  Fmt.format_f 3 (Fin (25 # 2)) = lit "12.500" /\
  Fmt.format_f 2 (Fin (1 # 8)) = lit "0.12" /\
  Fmt.format_f 2 (Fin (3 # 8)) = lit "0.38" /\
  Fmt.format_f 3 (Fin (-1 # 10000)) = lit "-0.000" /\
  Fmt.format_f 1 (Fin (inject_Z 399)) = lit "399.0" /\
  Fmt.format_f 3 (Fin Fmt.float_99_99) = lit "99.990".
Proof. repeat split; reflexivity. Qed.

Example zfactor_setter_examples :
  tx (inst (snd (zfactor_setter Fmt.NegativeZero (on_wire []))))
  = [frame (lit "F=-0.000")] /\
  tx (inst (snd (zfactor_setter (Fmt.Number NaN) (on_wire []))))
  = [frame (lit "F=nan")] /\
  zfactor_setter (Fmt.Number (Fin (inject_Z 123456))) (on_wire [x41])
  = (Raise (ValueError (lit "maximum message length is 10!")), on_wire [x41]).
Proof. repeat split; reflexivity. Qed.

Example int_error_message :
  Py.int_ascii (lit "badtext")
  = Raise (ValueError
             (lit "invalid literal for int() with base 10: 'badtext'")).
Proof. reflexivity. Qed.

Example poweron_status_example :
  fst (poweron_status (on_wire [x02; x02; x41; x05; x46]))
  = Ret [true; false; true].
Proof. reflexivity. Qed.

(** ** The checksum *)

(** X1: the checksum of a concatenation is the sum of the checksums modulo
    256, and the checksum does not depend on the order of the characters:
    a frame whose payload characters are permuted carries the same
    checksum. *)
Theorem checksum_additive_and_order_blind :
  (forall a b : str,
      _calc_checksum (a ++ b)
      = ((_calc_checksum a + _calc_checksum b) mod 256)%N) /\
  (forall a b : str,
      Permutation a b -> _calc_checksum a = _calc_checksum b).
Proof.
  split.
  - intros a b. unfold _calc_checksum. rewrite fold_left_app.
    rewrite (fold_add_shift b). now rewrite N.Div0.add_mod.
  - intros a b H. unfold _calc_checksum. f_equal.
    induction H as [|x l l' _ IH|x y l|l l' l'' _ IH1 _ IH2];
      cbn [fold_left].
    + reflexivity.
    + rewrite (fold_add_shift l), (fold_add_shift l'). now rewrite IH.
    + f_equal. lia.
    + congruence.
Qed.

Lemma checksum_additive_and_order_blind_witness :
  _calc_checksum (lit "G=5000") = _calc_checksum (lit "G=0050").
Proof.
  apply (proj2 checksum_additive_and_order_blind).
  cbv. do 2 apply perm_skip.
  eapply perm_trans; [apply perm_swap|]. apply perm_skip, perm_swap.
Defined.

(** ** What [_send] refuses *)

Lemma bytes_Raise (l : list N) :
  Exists (fun n => (256 <= n)%N) l ->
  Py.bytes l = Raise (ValueError (lit "bytes must be in range(0, 256)")).
Proof.
  induction l as [|n l IH]; intros H; [inversion H|]. cbn [Py.bytes].
  destruct (Byte.of_N n) as [b|] eqn:Eb; [|reflexivity].
  rewrite IH; [reflexivity|]. inversion H as [? ? Hn|]; subst; [|assumption].
  exfalso. assert (Hb : Byte.of_N n = None)
    by (apply Byte.of_N_None_iff; lia). congruence.
Qed.

Lemma not_sendable (msg : str) :
  ~ sendable msg ->
  (10 < len msg)%N \/
  ((len msg <= 10)%N /\ Exists (fun c => (256 <= c)%N) msg).
Proof.
  intros H. destruct (N.ltb_spec 10 (len msg)) as [Hl|Hl]; [now left|].
  right. split; [exact Hl|].
  assert (Hn : ~ Forall (fun c => (c < 256)%N) msg)
    by (intros HF; apply H; split; assumption).
  apply neg_Forall_Exists_neg in Hn.
  - eapply Exists_impl; [|exact Hn]. cbv beta. intros c Hc. lia.
  - intros c. destruct (c <? 256)%N eqn:E; [left|right].
    + now apply N.ltb_lt.
    + now apply N.ltb_ge, N.le_ngt in E.
Qed.

(** X2: [query] refuses exactly the commands that are longer than 10
    characters or hold a character above 255.  A refused command raises
    [ValueError] and leaves the session as it was: nothing is logged,
    written or read, and [statuscode] keeps its value.  Every other command
    is logged and written as one frame, and [_send] returns the length of
    the frame. *)
Theorem send_refuses_before_transport (msg : str) (self : STM100) :
  (sendable msg ->
   _send msg self = (Ret (len msg + 3)%N, sent msg self) /\
   length (frame msg) = (length msg + 3)%nat) /\
  (~ sendable msg ->
   exists why : str,
     _send msg self = (Raise (ValueError why), self) /\
     query msg self = (Raise (ValueError why), self)).
Proof.
  split.
  - intros Hs. split; [apply (_send_ok self Hs)|].
    destruct (frame_shape Hs) as [n [bs [chk [E [_ [Hbs _]]]]]].
    unfold frame. rewrite E. cbn [length]. rewrite length_app, <- Hbs.
    rewrite length_map. cbn [length]. lia.
  - intros Hn. apply not_sendable in Hn. destruct Hn as [Hl|[Hl Hex]].
    + eexists. unfold query, bind. rewrite (@_send_too_long msg self Hl).
      split; reflexivity.
    + assert (E : Py.bytes ([2; len msg] ++ msg ++ [_calc_checksum msg])%N
                  = Raise (ValueError (lit "bytes must be in range(0, 256)"))).
      { apply bytes_Raise. cbn [app]. do 2 apply Exists_cons_tl.
        apply Exists_app. now left. }
      eexists. unfold query, bind, _send, lift.
      replace (10 <? len msg)%N with false by (symmetry; apply N.ltb_ge; lia).
      unfold bind, lift. rewrite E. split; reflexivity.
Qed.

Lemma send_refuses_before_transport_witness :
  (_send (lit "j1?") (on_wire [x41])
   = (Ret 6%N, sent (lit "j1?") (on_wire [x41])) /\
   length (frame (lit "j1?")) = 6%nat) /\
  exists why : str,
    _send [8364%N] (on_wire [x41]) = (Raise (ValueError why), on_wire [x41]) /\
    query [8364%N] (on_wire [x41]) = (Raise (ValueError why), on_wire [x41]).
Proof.
  split.
  - apply (proj1 (send_refuses_before_transport (lit "j1?") (on_wire [x41]))).
    split; [discriminate|repeat constructor].
  - apply (proj2 (send_refuses_before_transport [8364%N] (on_wire [x41]))).
    intros [_ H]. inversion H as [|? ? Hc _]. discriminate Hc.
Defined.

(** ** How [_read] fails *)

Lemma read_bytes_empty (count : N) (self : STM100) :
  rx (inst self) = [] -> count <> 0%N ->
  Visa.read_bytes count self
  = (Raise VisaIOError, set_inst (mkResource [] (tx (inst self))) self).
Proof.
  intros Hrx Hc. unfold Visa.read_bytes. rewrite Hrx. cbn [length].
  destruct (N.to_nat count) eqn:E; [lia|reflexivity].
Qed.

Lemma utf8_high_byte (b : byte) :
  (128 <= Byte.to_N b)%N -> Py.utf8 [b] = None.
Proof.
  intros H. cbn [Py.utf8]. cbv zeta.
  replace (Byte.to_N b <? 128)%N with false
    by (symmetry; apply N.ltb_ge; exact H).
  repeat match goal with
         | |- (if ?c then _ else _) = _ => destruct c
         end; reflexivity.
Qed.

Lemma utf8_low_byte (b : byte) (s : str) :
  Py.utf8 [b] = Some s -> s = [Byte.to_N b] /\ (Byte.to_N b < 128)%N.
Proof.
  destruct (N.ltb_spec (Byte.to_N b) 128) as [Hlt|Hge].
  - rewrite (@utf8_ascii [b]) by (repeat constructor; exact Hlt).
    intros H. injection H as <-. auto.
  - rewrite utf8_high_byte by exact Hge. discriminate.
Qed.

(** X3: a reply that does not begin with the start byte.  When the first
    byte is an ASCII character other than 0x02, [_read] logs the error,
    discards the whole read buffer and raises [RuntimeError]; when the first
    byte is 0x80 or above, decoding it raises [UnicodeDecodeError] first:
    nothing is logged and the bytes after it stay in the read buffer.  In
    both cases nothing is written and [statuscode] keeps its value. *)
Theorem read_without_start_byte
        (self : STM100) (b : byte) (rest : list byte) :
  rx (inst self) = b :: rest ->
  b <> x02 ->
  ((Byte.to_N b < 128)%N ->
   fst (_read self)
   = Raise (RuntimeError (lit "Received message without start byte")) /\
   rx (inst (snd (_read self))) = [] /\
   log (snd (_read self))
   = log self ++ [error (lit "Received message without start byte")]) /\
  ((128 <= Byte.to_N b)%N ->
   fst (_read self) = Raise UnicodeDecodeError /\
   rx (inst (snd (_read self))) = rest /\
   log (snd (_read self)) = log self) /\
  tx (inst (snd (_read self))) = tx (inst self) /\
  statuscode (snd (_read self)) = statuscode self.
Proof.
  intros Hrx Hb. split; [|split].
  - intros Hlt.
    assert (E : _read self
                = (Raise (RuntimeError
                            (lit "Received message without start byte")),
                   set_inst (mkResource [] (tx (inst self)))
                     (set_log
                        (log self ++
                         [error (lit "Received message without start byte")])
                        (set_inst (mkResource rest (tx (inst self))) self)))).
    { unfold _read, bind at 1. rewrite (read_byte _ Hrx).
      unfold bind at 1, lift at 1, Py.decode.
      rewrite (@utf8_ascii [b]) by (repeat constructor; exact Hlt).
      cbn [map].
      replace (Py.str_eq [Byte.to_N b] [2%N]) with false; [reflexivity|].
      symmetry. apply str_eq_false. intros E. injection E as E.
      apply Hb. eapply byte_of_to_N; [exact E|reflexivity]. }
    rewrite E. repeat split; reflexivity.
  - intros Hge.
    assert (E : _read self
                = (Raise UnicodeDecodeError,
                   set_inst (mkResource rest (tx (inst self))) self)).
    { unfold _read, bind at 1. rewrite (read_byte _ Hrx).
      unfold bind at 1, lift at 1, Py.decode.
      now rewrite utf8_high_byte by exact Hge. }
    rewrite E. repeat split; reflexivity.
  - split; [apply _read_keeps_tx|apply _read_keeps_statuscode].
Qed.

Lemma read_without_start_byte_witness :
  (fst (_read (on_wire [x41; x02; x01; x41; x41]))
   = Raise (RuntimeError (lit "Received message without start byte")) /\
   rx (inst (snd (_read (on_wire [x41; x02; x01; x41; x41])))) = [] /\
   log (snd (_read (on_wire [x41; x02; x01; x41; x41])))
   = log (on_wire [x41; x02; x01; x41; x41])
     ++ [error (lit "Received message without start byte")]) /\
  (fst (_read (on_wire [xff; x02; x01; x41; x41])) = Raise UnicodeDecodeError /\
   rx (inst (snd (_read (on_wire [xff; x02; x01; x41; x41]))))
   = [x02; x01; x41; x41] /\
   log (snd (_read (on_wire [xff; x02; x01; x41; x41])))
   = log (on_wire [xff; x02; x01; x41; x41])).
Proof.
  split.
  - apply (@read_without_start_byte (on_wire [x41; x02; x01; x41; x41])
             x41 [x02; x01; x41; x41] eq_refl).
    + discriminate.
    + reflexivity.
  - apply (@read_without_start_byte (on_wire [xff; x02; x01; x41; x41])
             xff [x02; x01; x41; x41] eq_refl).
    + discriminate.
    + discriminate.
Defined.

Lemma bytes_raises_ValueError (l : list N) (e : exn) :
  Py.bytes l = Raise e ->
  e = ValueError (lit "bytes must be in range(0, 256)").
Proof.
  induction l as [|n l IH]; cbn [Py.bytes]; [discriminate|].
  destruct (Byte.of_N n); [|intros H; now injection H].
  destruct (Py.bytes l); [discriminate|].
  intros H. injection H as <-. now apply IH.
Qed.

Lemma _send_raises_ValueError (msg : str) (self : STM100) (e : exn) :
  fst (_send msg self) = Raise e -> exists why : str, e = ValueError why.
Proof.
  unfold _send. destruct (10 <? len msg)%N.
  - intros H. injection H as <-. eauto.
  - unfold bind at 1, lift at 1.
    destruct (Py.bytes _) as [cmd|e0] eqn:E.
    + discriminate.
    + intros H. injection H as <-.
      apply bytes_raises_ValueError in E. eauto.
Qed.

(** What [_read] ends in: a status of one character and a body, or one of
    its four exceptions. *)
Lemma _read_outcome (self : STM100) :
  match fst (_read self) with
  | Ret (status, _) => exists c : N, status = [c]
  | Raise e => read_failure e
  end.
Proof.
  unfold read_failure, _read, bind at 1.
  destruct (rx (inst self)) as [|b0 r0] eqn:Hrx.
  { rewrite (read_bytes_empty self Hrx) by discriminate. cbn [fst]. auto. }
  rewrite (read_byte _ Hrx). unfold bind at 1, lift at 1, Py.decode.
  destruct (Py.utf8 [b0]) as [s|]; [|cbn [fst]; auto].
  destruct (Py.str_eq s [2%N]);
    [|unfold bind, log_error, Visa.flush_discard_read_buffer, raise;
      cbn [fst]; auto 6].
  unfold bind at 1. set (s1 := set_inst _ self).
  destruct r0 as [|n r1].
  { rewrite (@read_bytes_empty 1 s1) by (reflexivity || discriminate).
    cbn [fst]. auto. }
  rewrite (@read_byte n r1 s1) by reflexivity.
  unfold bind at 1, lift at 1. cbn [Py.ord_bytes]. unfold bind at 1.
  set (s2 := set_inst _ s1). unfold Visa.read_bytes at 1.
  destruct (_ <=? _)%nat; [|cbn [fst]; auto].
  unfold bind at 1, lift at 1, Py.decode.
  destruct (Py.utf8 _) as [msg|]; [|cbn [fst]; auto].
  unfold bind at 1. set (s3 := set_inst _ s2).
  destruct (rx (inst s3)) as [|chk r3] eqn:Hrx3.
  { rewrite (@read_bytes_empty 1 s3 Hrx3) by discriminate. cbn [fst]. auto. }
  rewrite (read_byte _ Hrx3). unfold bind at 1, lift at 1.
  cbn [Py.ord_bytes]. unfold bind at 1.
  destruct (negb _); unfold log_error, ret at 1, bind at 1, lift at 1;
    destruct msg as [|c body]; cbn [Py.item0 fst]; unfold ret;
    cbn [fst]; eauto.
Qed.

(** X4: the only exceptions [_read] raises are the timeout of the transport
    ([VisaIOError]), [UnicodeDecodeError] for a first byte or a payload that
    is no UTF-8 text, [RuntimeError] for a missing start byte and
    [IndexError] for an empty payload; a checksum mismatch is none of them.
    [query] adds the [ValueError] of a refused command, and a float getter,
    which catches [ValueError] and its subclass [UnicodeDecodeError], lets
    only the timeout, [RuntimeError] and [IndexError] through. *)
Theorem read_failure_modes (float_str : str -> option number) :
  (forall (self : STM100) (e : exn),
      fst (_read self) = Raise e -> read_failure e) /\
  (forall (msg : str) (self : STM100) (e : exn),
      fst (query msg self) = Raise e ->
      read_failure e \/ exists why : str, e = ValueError why) /\
  (forall (cmd : str) (self : STM100) (e : exn),
      fst (_query_float float_str cmd self) = Raise e ->
      read_failure e /\ e <> UnicodeDecodeError).
Proof.
  assert (Hread : forall (self : STM100) (e : exn),
             fst (_read self) = Raise e -> read_failure e).
  { intros self e H. pose proof (_read_outcome self) as Ho.
    now rewrite H in Ho. }
  assert (Hquery : forall (msg : str) (self : STM100) (e : exn),
             fst (query msg self) = Raise e ->
             read_failure e \/ exists why : str, e = ValueError why).
  { intros msg self e. unfold query, bind at 1.
    pose proof (@_send_raises_ValueError msg self) as Hsend.
    destruct (_send msg self) as [[k|e1] s1]; cbn [fst] in *.
    - unfold bind at 1. pose proof (Hread s1) as Hr.
      destruct (_read s1) as [[[st ans]|e2] s2]; cbn [fst] in *.
      + discriminate.
      + intros H. injection H as <-. left. now apply Hr.
    - intros H. injection H as <-. right. now apply Hsend. }
  split; [exact Hread|split; [exact Hquery|]].
  intros cmd self e. unfold _query_float, try_except_ValueError, bind, lift.
  pose proof (Hquery cmd self) as Hq.
  destruct (query cmd self) as [[ans|e0] s]; cbn [fst] in *.
  - unfold float. destruct (float_str ans); discriminate.
  - destruct (isinstance_ValueError e0) eqn:Ei; [discriminate|].
    intros H. injection H as <-.
    destruct (Hq e0 eq_refl) as [Hr|[why ->]]; [|discriminate Ei].
    split; [exact Hr|]. intros ->. discriminate Ei.
Qed.

Lemma read_failure_modes_witness :
  (fst (_read (on_wire [x02; x05; x41])) = Raise VisaIOError /\
   read_failure VisaIOError) /\
  (fst (_query_float float_whole (lit "S") (on_wire [x02; x00; x00]))
   = Raise IndexError /\
   read_failure IndexError /\ IndexError <> UnicodeDecodeError).
Proof.
  split; (split; [reflexivity|]).
  - apply (proj1 (read_failure_modes float_whole)
                 (on_wire [x02; x05; x41]) VisaIOError).
    reflexivity.
  - apply (proj2 (proj2 (read_failure_modes float_whole))
                 (lit "S") (on_wire [x02; x00; x00]) IndexError).
    reflexivity.
Defined.

Lemma _read_undecodable (self : STM100) (n : byte)
      (payload rest : list byte) :
  rx (inst self) = x02 :: n :: payload ++ rest ->
  Byte.to_N n = N.of_nat (length payload) ->
  Py.utf8 payload = None ->
  _read self
  = (Raise UnicodeDecodeError,
     set_inst (mkResource rest (tx (inst self))) self).
Proof.
  intros Hrx Hn Hp. unfold _read, bind.
  rewrite (read_byte _ Hrx). cbn -[Visa.read_bytes _calc_checksum lit].
  rewrite (@read_byte n (payload ++ rest)) by reflexivity.
  cbn -[Visa.read_bytes _calc_checksum lit].
  rewrite (@read_bytes_app payload rest) by (auto; reflexivity).
  unfold Py.decode. rewrite Hp. destruct self as [[rx0 tx0] lg sc fl].
  reflexivity.
Qed.

(** X5: a float getter hides a reply whose payload is no UTF-8 text.  The
    [UnicodeDecodeError] of [_read] is caught as a [ValueError]: the getter
    returns [nan], [statuscode] keeps its value, and what followed the
    payload, beginning with the checksum byte of the frame, stays unread in
    the buffer for the next query. *)
Theorem float_getter_hides_undecodable_reply
        (float_str : str -> option number) (cmd : str) (self : STM100)
        (n : byte) (payload rest : list byte) :
  sendable cmd ->
  rx (inst self) = x02 :: n :: payload ++ rest ->
  Byte.to_N n = N.of_nat (length payload) ->
  Py.utf8 payload = None ->
  fst (_query_float float_str cmd self) = Ret nan /\
  rx (inst (snd (_query_float float_str cmd self))) = rest /\
  tx (inst (snd (_query_float float_str cmd self)))
  = tx (inst self) ++ [frame cmd] /\
  statuscode (snd (_query_float float_str cmd self)) = statuscode self.
Proof.
  intros Hs Hrx Hn Hp.
  assert (E : _query_float float_str cmd self
              = (Ret nan,
                 set_inst (mkResource rest (tx (inst (sent cmd self))))
                          (sent cmd self))).
  { unfold _query_float, try_except_ValueError, bind at 1, query, bind at 1.
    rewrite (_send_ok self Hs). unfold bind at 1.
    rewrite (@_read_undecodable (sent cmd self) n payload rest Hrx Hn Hp).
    reflexivity. }
  rewrite E. repeat split; reflexivity.
Qed.

Lemma float_getter_hides_undecodable_reply_witness :
  fst (_query_float float_whole (lit "S")
         (on_wire [x02; x02; x41; xe9; x2a; x02; x01; x41; x41]))
  = Ret nan /\
  rx (inst (snd (_query_float float_whole (lit "S")
                   (on_wire [x02; x02; x41; xe9; x2a; x02; x01; x41; x41]))))
  = [x2a; x02; x01; x41; x41] /\
  tx (inst (snd (_query_float float_whole (lit "S")
                   (on_wire [x02; x02; x41; xe9; x2a; x02; x01; x41; x41]))))
  = tx (inst (on_wire [x02; x02; x41; xe9; x2a; x02; x01; x41; x41]))
    ++ [frame (lit "S")] /\
  statuscode (snd (_query_float float_whole (lit "S")
                     (on_wire [x02; x02; x41; xe9; x2a; x02; x01; x41; x41])))
  = statuscode (on_wire [x02; x02; x41; xe9; x2a; x02; x01; x41; x41]).
Proof.
  apply (@float_getter_hides_undecodable_reply float_whole (lit "S")
           (on_wire [x02; x02; x41; xe9; x2a; x02; x01; x41; x41])
           x02 [x41; xe9] [x2a; x02; x01; x41; x41]).
  - split; [discriminate|repeat constructor].
  - reflexivity.
  - reflexivity.
  - reflexivity.
Defined.

(** ** The status code over a session *)

Lemma status_step_refl (self : STM100) : status_step self self.
Proof. now left. Qed.

Lemma status_step_trans (a b c : STM100) :
  status_step a b -> status_step b c -> status_step a c.
Proof.
  intros [Hab|[x Hb]] [Hbc|Hc]; unfold status_step, has_status in *.
  - left. congruence.
  - now right.
  - right. exists x. congruence.
  - now right.
Qed.

Lemma keeps_steps {A} (m : M A) : keeps statuscode m -> steps_status m.
Proof. intros H self. left. apply H. Qed.

Lemma steps_bind {A B} (m : M A) (k : A -> M B) :
  steps_status m -> (forall a, steps_status (k a)) -> steps_status (bind m k).
Proof.
  intros Hm Hk self. unfold bind. specialize (Hm self).
  destruct (m self) as [[a|e] self']; cbn [snd] in *.
  - eapply status_step_trans; [exact Hm|apply Hk].
  - exact Hm.
Qed.

Lemma steps_ret {A} (a : A) : steps_status (ret a).
Proof. intros self. apply status_step_refl. Qed.

Lemma steps_raise {A} (e : exn) : steps_status (@raise A e).
Proof. intros self. apply status_step_refl. Qed.

Lemma steps_lift {A} (r : result A) : steps_status (lift r).
Proof. intros self. apply status_step_refl. Qed.

Lemma steps_assert (cond : bool) (why : str) :
  steps_status (assert cond why).
Proof. destruct cond; [apply steps_ret|apply steps_raise]. Qed.

(** [query] leaves the status code alone or sets it to the character
    [_read] returned. *)
Lemma steps_query (msg : str) : steps_status (query msg).
Proof.
  intros self. unfold query, bind.
  pose proof (_send_keeps_statuscode msg self) as Hs.
  destruct (_send msg self) as [[k|e] s1]; cbn [snd] in *;
    [|left; exact Hs].
  pose proof (_read_keeps_statuscode s1) as Hr.
  pose proof (_read_outcome s1) as Ho.
  destruct (_read s1) as [[[status ans]|e] s2]; cbn [fst snd] in *.
  - destruct Ho as [c ->]. right. exists c. reflexivity.
  - left. congruence.
Qed.

Lemma steps_query_float (float_str : str -> option number) (cmd : str) :
  steps_status (_query_float float_str cmd).
Proof.
  intros self. rewrite _query_float_state. apply steps_query.
Qed.

Lemma steps_for_in {A} (l : list A) (body : A -> M unit) :
  (forall x, steps_status (body x)) -> steps_status (for_in l body).
Proof.
  intros H. induction l as [|x l IH]; cbn [for_in].
  - apply steps_ret.
  - apply steps_bind; auto.
Qed.

Lemma steps_dict_comprehension (f : str -> M number)
      (items : list (string * str)) :
  (forall v, steps_status (f v)) ->
  steps_status (dict_comprehension f items).
Proof.
  intros H. induction items as [|[k v] items IH]; cbn [dict_comprehension].
  - apply steps_ret.
  - apply steps_bind; [apply H|]. intros x.
    apply steps_bind; [exact IH|]. intros d. apply steps_ret.
Qed.

Lemma steps_films_append (d : film) : steps_status (films_append d).
Proof.
  intros self. unfold films_append.
  destruct (_films self); left; reflexivity.
Qed.

#[local] Hint Resolve steps_ret steps_raise steps_lift steps_assert
  steps_query steps_query_float steps_films_append : steps.

Lemma steps_query_films (float_str : str -> option number) :
  steps_status (query_films float_str).
Proof.
  assert (Hset : forall f, steps_status
            (fun self : STM100 => (Ret tt, set_films f self)))
    by (intros f self; left; reflexivity).
  assert (Hget : steps_status
            (fun self : STM100 => (Ret (_films self), self)))
    by (intros self; left; reflexivity).
  unfold query_films.
  apply steps_bind; [apply Hset|intros _].
  apply steps_bind; [|intros _; exact Hget].
  apply steps_for_in. intros f.
  apply steps_bind; [|intros; apply steps_films_append].
  apply steps_dict_comprehension. intros v. apply steps_query_float.
Qed.

Lemma steps_films (float_str : str -> option number) :
  steps_status (films float_str).
Proof.
  unfold films. apply steps_bind; [apply steps_query_films|intros _].
  intros self; left; reflexivity.
Qed.

(** Every call leaves the status code alone or sets it to a character. *)
Lemma after_steps (float_str : str -> option number)
      (int_unicode : str -> result Z) (c : call) (self : STM100) :
  status_step self (after float_str int_unicode c self).
Proof.
  destruct c; cbn [after];
    match goal with
    | |- status_step _ (snd (?m _)) =>
        enough (H : steps_status m) by apply H
    end;
    try apply steps_films; try apply steps_query_films;
    unfold model, testmode, testmode_setter, thickness, setpoint,
      setpoint_setter, setpoint_reached, rate, density, density_setter,
      zfactor, zfactor_setter, tooling, tooling_setter, frequency, lifetime,
      crystal_fail, timer, shutter, shutter_setter, poweron_status, reset_poweron_status,
      zero, _query_bool;
    steps_walk_with ltac:(apply steps_bind; [|intros]).
Qed.

Lemma after_all_has_status (float_str : str -> option number)
      (int_unicode : str -> result Z) (calls : list call) (self : STM100) :
  has_status self ->
  has_status (after_all float_str int_unicode calls self).
Proof.
  unfold after_all. revert self.
  induction calls as [|c calls IH]; intros self H; cbn [fold_left].
  - exact H.
  - apply IH.
    destruct (after_steps float_str int_unicode c self) as [E|Hs];
      [|exact Hs].
    destruct H as [x Hx]. exists x. congruence.
Qed.

(** X6: the status code is only ever replaced by a status character.  Each
    call of the driver on an open session ([query], every getter and
    setter, [films], [query_films], [zero], the power-on methods),
    returning or raising,
    leaves [statuscode] as it was or sets it to a string of one character;
    a [query] that returns has set it; so once it holds a character it
    holds one after any sequence of calls, and never [None] again. *)
Theorem status_code_once_set_stays_set
        (float_str : str -> option number) (int_unicode : str -> result Z) :
  (forall (c : call) (self : STM100),
      status_step self (after float_str int_unicode c self)) /\
  (forall (msg : str) (self : STM100) (ans : str),
      fst (query msg self) = Ret ans ->
      has_status (snd (query msg self))) /\
  (forall (calls : list call) (self : STM100),
      has_status self ->
      has_status (after_all float_str int_unicode calls self)).
Proof.
  split; [|split].
  - apply after_steps.
  - intros msg self ans H. unfold query, bind in *.
    destruct (_send msg self) as [[k|e] s1]; [|discriminate].
    pose proof (_read_outcome s1) as Ho.
    destruct (_read s1) as [[[status a]|e] s2]; [|discriminate].
    cbn [fst snd] in *. destruct Ho as [c ->]. exists c. reflexivity.
  - apply after_all_has_status.
Qed.

Lemma status_code_once_set_stays_set_witness :
  has_status
    (after_all float_whole (fun _ => Raise TypeError)
       [Thickness; Timer; SetDensity NaN; SetZfactor Fmt.NegativeZero; Films;
        Zero (lit "rate")]
       (snd (query (lit "@")
               (on_wire [x02; x03; x41; x53; x54; x00; x41; x02])))).
Proof.
  apply (proj2 (proj2 (status_code_once_set_stays_set
                         float_whole (fun _ => Raise TypeError)))).
  apply (proj1 (proj2 (status_code_once_set_stays_set
                         float_whole (fun _ => Raise TypeError)))
               (lit "@") (on_wire [x02; x03; x41; x53; x54; x00; x41; x02])
               (lit "ST")).
  reflexivity.
Defined.

Lemma contains_AB (c : N) :
  Py.contains (lit "AB") [c] = (c =? 65)%N || (c =? 66)%N.
Proof.
  cbn -[N.eqb]. rewrite !andb_true_r, !orb_false_r. reflexivity.
Qed.

(** X7: the hook of the Tango device.  With a status character in
    [statuscode] it sets the state to [ON] for [A] and [B] and to [FAULT]
    for any other character, and returns; with [statuscode] still [None] it
    raises [TypeError] and leaves the state alone.  After a session has
    received its first status, it returns after every sequence of driver
    calls, failed ones included. *)
Theorem hook_follows_status_code :
  (forall d : STM100Tango,
      statuscode (qcm d) = None ->
      always_executed_hook d = (Raise TypeError, d)) /\
  (forall (d : STM100Tango) (c : N),
      statuscode (qcm d) = Some [c] ->
      always_executed_hook d
      = (Ret tt,
         mkSTM100Tango (qcm d)
           (if (c =? 65)%N || (c =? 66)%N then ON else FAULT))) /\
  (forall (float_str : str -> option number)
          (int_unicode : str -> result Z)
          (calls : list call) (self : STM100) (st : DevState),
      has_status self ->
      fst (always_executed_hook
             (mkSTM100Tango (after_all float_str int_unicode calls self) st))
      = Ret tt).
Proof.
  split; [|split].
  - intros d H. unfold always_executed_hook. now rewrite H.
  - intros d c H. unfold always_executed_hook. rewrite H, contains_AB.
    now destruct ((c =? 65)%N || (c =? 66)%N).
  - intros float_str int_unicode calls self st H.
    destruct (after_all_has_status float_str int_unicode calls H) as [c Hc].
    unfold always_executed_hook. cbn [qcm]. rewrite Hc.
    now destruct (Py.contains (lit "AB") [c]).
Qed.

Lemma hook_follows_status_code_witness :
  always_executed_hook (mkSTM100Tango (on_wire []) UNKNOWN)
  = (Raise TypeError, mkSTM100Tango (on_wire []) UNKNOWN) /\
  always_executed_hook
    (mkSTM100Tango (mkSTM100 (mkResource [] []) [] (Some (lit "C")) None) ON)
  = (Ret tt,
     mkSTM100Tango (mkSTM100 (mkResource [] []) [] (Some (lit "C")) None)
                   FAULT) /\
  fst (always_executed_hook
         (mkSTM100Tango
            (after_all float_whole (fun _ => Raise TypeError)
               [Thickness; SetZfactor (Fmt.Number (Fin 1)); QueryFilms; Timer]
               (mkSTM100 (mkResource [x41] []) [] (Some (lit "B")) None))
            UNKNOWN))
  = Ret tt.
Proof.
  pose proof hook_follows_status_code as [Hnone [Hsome Hafter]].
  split; [|split].
  - apply Hnone. reflexivity.
  - apply (Hsome (mkSTM100Tango
                    (mkSTM100 (mkResource [] []) [] (Some (lit "C")) None) ON)
                 67%N).
    reflexivity.
  - apply Hafter. exists 66%N. reflexivity.
Defined.

(** ** [zero] and the boolean setters *)

(** X8: [zero] accepts the three targets [both], [thickness] and [timer]
    and writes the frame of [B], [C] or [D] for them; any other target
    raises [ValueError] and leaves the session as it was, nothing being
    written or read. *)
Theorem zero_targets :
  (forall (what : str) (self : STM100),
      what <> lit "both" -> what <> lit "thickness" -> what <> lit "timer" ->
      zero what self
      = (Raise (ValueError
                  (lit "Parameter 'what' needs to be both/thickness/timer")),
         self)) /\
  (forall self : STM100,
      tx (inst (snd (zero (lit "both") self)))
      = tx (inst self) ++ [frame (lit "B")] /\
      tx (inst (snd (zero (lit "thickness") self)))
      = tx (inst self) ++ [frame (lit "C")] /\
      tx (inst (snd (zero (lit "timer") self)))
      = tx (inst self) ++ [frame (lit "D")]).
Proof.
  split.
  - intros what self H1 H2 H3. unfold zero, bind.
    apply str_eq_false in H1, H2, H3. now rewrite H1, H2, H3.
  - intros self.
    assert (H : forall cmd : str,
               sendable cmd ->
               tx (inst (snd ((query cmd ;;; ret tt) self)))
               = tx (inst self) ++ [frame cmd]).
    { intros cmd Hs. pose proof (query_tx self Hs) as Htx. unfold bind, ret.
      destruct (query cmd self) as [[ans|e] s']; exact Htx. }
    repeat split; apply H; (split; [discriminate|repeat constructor]).
Qed.

Lemma zero_targets_witness :
  zero (lit "rate") (on_wire [x02; x01; x41; x41])
  = (Raise (ValueError
              (lit "Parameter 'what' needs to be both/thickness/timer")),
     on_wire [x02; x01; x41; x41]) /\
  tx (inst (snd (zero (lit "timer") (on_wire [x02; x01; x41; x41]))))
  = [[x02; x01; x44; x44]].
Proof.
  split.
  - apply (proj1 zero_targets); discriminate.
  - apply (proj2 zero_targets (on_wire [x02; x01; x41; x41])).
Defined.

(** X9: the boolean setters and getters agree on the two characters.  The
    setter of [testmode] writes the frame of [K] followed by [!] for [True]
    and [@] for [False], the setter of [shutter] that of [A] followed by the
    same character, and a boolean getter that receives this character as
    reply body returns the value that was set. *)
Theorem bool_setter_getter_agree (enable : bool) :
  (forall self : STM100,
      tx (inst (snd (testmode_setter enable self)))
      = tx (inst self) ++ [frame (lit "K" ++ sentinel enable)] /\
      tx (inst (snd (shutter_setter enable self)))
      = tx (inst self) ++ [frame (lit "A" ++ sentinel enable)]) /\
  (forall (cmd : str) (peer : STM100) (n chk : byte)
          (payload rest : list byte) (status : N),
      sendable cmd ->
      rx (inst peer) = x02 :: n :: payload ++ chk :: rest ->
      Byte.to_N n = N.of_nat (length payload) ->
      Py.utf8 payload = Some (status :: sentinel enable) ->
      fst (_query_bool cmd peer) = Ret enable).
Proof.
  split.
  - intros self.
    assert (H : forall cmd : str,
               sendable cmd ->
               tx (inst (snd ((query cmd ;;; ret tt) self)))
               = tx (inst self) ++ [frame cmd]).
    { intros cmd Hs. pose proof (query_tx self Hs) as Htx. unfold bind, ret.
      destruct (query cmd self) as [[ans|e] s']; exact Htx. }
    unfold testmode_setter, shutter_setter.
    split; apply H; destruct enable;
      (split; [discriminate|repeat constructor]).
  - intros cmd peer n chk payload rest status Hs Hrx Hn Hp.
    unfold _query_bool, bind at 1.
    rewrite (@query_reply cmd peer n chk payload rest status _ Hs Hrx Hn Hp).
    destruct enable; reflexivity.
Qed.

Lemma bool_setter_getter_agree_witness :
  tx (inst (snd (shutter_setter true (on_wire []))))
  = tx (inst (on_wire [])) ++ [frame (lit "A" ++ sentinel true)] /\
  fst (_query_bool (lit "A?") (on_wire [x02; x02; x41; x21; x62])) = Ret true.
Proof.
  split.
  - apply (proj1 (bool_setter_getter_agree true) (on_wire [])).
  - apply (proj2 (bool_setter_getter_agree true) (lit "A?")
                 (on_wire [x02; x02; x41; x21; x62]) x02 x62 [x41; x21] []
                 65%N).
    + split; [discriminate|repeat constructor].
    + reflexivity.
    + reflexivity.
    + reflexivity.
Defined.

(** ** The power-on status *)

Lemma land_pow2_testbit (n k : N) :
  negb (N.land n (2 ^ k) =? 0)%N = N.testbit n k.
Proof.
  destruct (N.testbit n k) eqn:E.
  - apply negb_true_iff, N.eqb_neq. intros H.
    assert (Hb : N.testbit (N.land n (2 ^ k)) k = true)
      by (rewrite N.land_spec, E, N.pow2_bits_true; reflexivity).
    rewrite H, N.bits_0 in Hb. discriminate.
  - apply negb_false_iff, N.eqb_eq. apply N.bits_inj. intros m.
    rewrite N.land_spec, N.bits_0, N.pow2_bits_eqb.
    destruct (N.eqb_spec k m) as [<-|Hne].
    + now rewrite E.
    + apply andb_false_r.
Qed.

(** X10: the power-on status.  For a reply body of one character the getter
    returns exactly three flags, bit 0, bit 1 and bit 2 of the code of the
    character, in this order; the higher bits do not matter.  For a body
    that is empty or longer than one character it raises [TypeError]. *)
Theorem poweron_status_bits
        (self : STM100) (n chk : byte) (payload rest : list byte)
        (status : N) (body : str) :
  rx (inst self) = x02 :: n :: payload ++ chk :: rest ->
  Byte.to_N n = N.of_nat (length payload) ->
  Py.utf8 payload = Some (status :: body) ->
  (forall c : N,
      body = [c] ->
      fst (poweron_status self)
      = Ret [N.testbit c 0; N.testbit c 1; N.testbit c 2]) /\
  (length body <> 1%nat -> fst (poweron_status self) = Raise TypeError).
Proof.
  intros Hrx Hn Hp.
  assert (Hs : sendable (lit "a"))
    by (split; [discriminate|repeat constructor]).
  assert (E : poweron_status self
              = (ans <- lift (Fmt.ord_str body) ;;
                 ret (map (fun i => negb (N.land ans i =? 0)%N) [1; 2; 4]%N))
                  (snd (query (lit "a") self))).
  { unfold poweron_status, bind at 1.
    now rewrite (@query_reply (lit "a") self n chk payload rest status body
                   Hs Hrx Hn Hp). }
  rewrite E. split.
  - intros c ->. unfold bind, lift, ret. cbn [Fmt.ord_str fst map].
    rewrite <- (land_pow2_testbit c 0), <- (land_pow2_testbit c 1),
      <- (land_pow2_testbit c 2).
    reflexivity.
  - intros Hlen. destruct body as [|c [|c' body']];
      [reflexivity|exfalso; now apply Hlen|reflexivity].
Qed.

Lemma poweron_status_bits_witness :
  fst (poweron_status (on_wire [x02; x02; x41; x7d; xbe]))
  = Ret [N.testbit 125 0; N.testbit 125 1; N.testbit 125 2] /\
  fst (poweron_status (on_wire [x02; x01; x41; x41])) = Raise TypeError.
Proof.
  split.
  - apply (proj1 (@poweron_status_bits (on_wire [x02; x02; x41; x7d; xbe])
                    x02 xbe [x41; x7d] [] 65%N [125%N]
                    eq_refl eq_refl eq_refl)).
    reflexivity.
  - apply (proj2 (@poweron_status_bits (on_wire [x02; x01; x41; x41])
                    x01 x41 [x41] [] 65%N [] eq_refl eq_refl eq_refl)).
    discriminate.
Defined.

(** ** The timer, again *)

Lemma split_length (sep : N) (s : str) :
  length (Py.split sep s) = S (count_occ N.eq_dec s sep).
Proof.
  induction s as [|c s IH]; [reflexivity|]. cbn [Py.split count_occ].
  destruct (N.eqb_spec c sep) as [->|Hne].
  - destruct (N.eq_dec sep sep); [|congruence]. cbn [length]. now rewrite IH.
  - destruct (N.eq_dec c sep); [congruence|].
    destruct (Py.split sep s) as [|w ws]; [discriminate IH|exact IH].
Qed.

(** X11: the timer getter returns a value only for a body that starts with
    [>], and the value is then [nan], or for a body with exactly one [:].
    A body with no [:] or with two or more raises, as does an empty
    body. *)
Theorem timer_needs_one_colon
        (int_unicode : str -> result Z) (self : STM100) (n chk : byte)
        (payload rest : list byte) (status : N) (ans : str) (v : number) :
  rx (inst self) = x02 :: n :: payload ++ chk :: rest ->
  Byte.to_N n = N.of_nat (length payload) ->
  Py.utf8 payload = Some (status :: ans) ->
  fst (timer int_unicode self) = Ret v ->
  (exists r : str, ans = lit ">" ++ r /\ v = nan) \/
  count_occ N.eq_dec ans 58%N = 1%nat.
Proof.
  intros Hrx Hn Hp.
  assert (Hs : sendable (lit "W"))
    by (split; [discriminate|repeat constructor]).
  unfold timer, bind at 1.
  rewrite (@query_reply (lit "W") self n chk payload rest status ans
             Hs Hrx Hn Hp).
  destruct ans as [|c r]; [discriminate|].
  unfold bind at 1, lift at 1. cbn [Py.item0].
  destruct (Py.str_eq [c] (lit ">")) eqn:Ec.
  - apply str_eq_true in Ec. injection Ec as ->.
    intros H. injection H as <-. left. exists r. auto.
  - unfold bind at 1, lift at 1.
    pose proof (split_length 58 (c :: r)) as Hl.
    destruct (Py.split 58 (c :: r)) as [|a [|b [|x y]]];
      cbn [Py.unpack2]; try discriminate.
    intros _. right. cbn [length] in Hl. injection Hl as Hl.
    symmetry. exact Hl.
Qed.

Lemma timer_needs_one_colon_witness :
  (exists r : str, lit "01:30" = lit ">" ++ r /\ Fin (inject_Z 90) = nan) \/
  count_occ N.eq_dec (lit "01:30") 58%N = 1%nat.
Proof.
  apply (@timer_needs_one_colon
           (fun _ => Raise TypeError)
           (on_wire [x02; x06; x41; x30; x31; x3a; x33; x30; x3f])
           x06 x3f [x41; x30; x31; x3a; x33; x30] [] 65%N (lit "01:30")
           (Fin (inject_Z 90)));
    reflexivity.
Defined.

Example timer_two_colons :
  fst (timer (fun _ => Raise TypeError)
         (on_wire [x02; x06; x41; x31; x3a; x32; x3a; x33; x00]))
  = Raise (ValueError (lit "too many values to unpack (expected 2)")).
Proof. reflexivity. Qed.

(** ** The film table when a query fails *)

Lemma slots_loop_partial (float_str : str -> option number) (l : list Z) :
  forall (self : STM100) (done : list film),
    _films self = Some done ->
    exists ds : list film,
      _films (snd (for_in l (fun f =>
        d <- dict_comprehension
               (fun v => _query_float float_str
                           (v ++ Py.format_d f ++ lit "?"))
               params ;;
        films_append d) self)) = Some (done ++ ds) /\
      match fst (for_in l (fun f =>
        d <- dict_comprehension
               (fun v => _query_float float_str
                           (v ++ Py.format_d f ++ lit "?"))
               params ;;
        films_append d) self) with
      | Ret _ => length ds = length l
      | Raise _ => (length ds < length l)%nat
      end.
Proof.
  induction l as [|f l IH]; intros self done Hdone.
  - exists []. cbn. now rewrite app_nil_r.
  - cbn [for_in]. set (body := fun f0 : Z => _) in *.
    assert (Hk : keeps _films
              (dict_comprehension
                 (fun v => _query_float float_str
                             (v ++ Py.format_d f ++ lit "?")) params)).
    { cbn [params dict_comprehension].
      repeat (apply keeps_bind; [|intros]); try apply keeps_ret;
        intros s; rewrite _query_float_state; apply query_keeps_films. }
    specialize (Hk self). unfold bind.
    destruct (body f self) as [r s1] eqn:Eb.
    unfold body in Eb. unfold bind in Eb.
    destruct (dict_comprehension _ params self) as [[d|e] s0];
      cbn [snd] in Hk.
    + unfold films_append in Eb. rewrite Hk, Hdone in Eb.
      injection Eb as <- <-.
      destruct (IH (set_films (Some (done ++ [d])) s0) (done ++ [d]) eq_refl)
        as [ds [Hf Hlen]].
      exists (d :: ds). fold body in Hf, Hlen.
      unfold films_append. rewrite Hk, Hdone. cbn [fst snd].
      rewrite Hf, <- app_assoc. split; [reflexivity|].
      destruct (fst (for_in l body _)); cbn [length]; lia.
    + injection Eb as <- <-. exists []. cbn [fst snd length].
      rewrite app_nil_r, Hk. split; [auto|lia].
Qed.

Lemma _read_nothing (s : STM100) :
  rx (inst s) = [] -> fst (_read s) = Raise VisaIOError.
Proof.
  intros H. unfold _read, bind at 1.
  now rewrite (read_bytes_empty s H) by discriminate.
Qed.

Lemma _query_float_read_fails (float_str : str -> option number)
      (cmd : str) (self : STM100) (e : exn) :
  sendable cmd ->
  (forall s : STM100, rx (inst s) = rx (inst self) ->
                      fst (_read s) = Raise e) ->
  isinstance_ValueError e = false ->
  exists self' : STM100,
    _query_float float_str cmd self = (Raise e, self') /\
    _films self' = _films self.
Proof.
  intros Hs Hread He.
  assert (Eq : exists s2, query cmd self = (Raise e, s2)).
  { unfold query, bind. rewrite (_send_ok self Hs).
    specialize (Hread (sent cmd self) eq_refl).
    destruct (_read (sent cmd self)) as [[[st ans]|e'] s2];
      cbn [fst] in Hread; [discriminate|]. injection Hread as ->. eauto. }
  destruct Eq as [s2 Eq]. pose proof (query_keeps_films cmd self) as Hf.
  rewrite Eq in Hf. cbn [snd] in Hf.
  exists s2. split; [|exact Hf].
  unfold _query_float, try_except_ValueError, bind. now rewrite Eq, He.
Qed.

(** One slot, cut short: when fewer replies than items arrive and the next
    read raises an exception that is no [ValueError], the comprehension
    raises it. *)
Lemma slot_replies_fail (float_str : str -> option number) (f : Z)
      (items : list (string * str)) :
  (forall kv, In kv items -> sendable (film_command f (snd kv))) ->
  forall (rs : list reply) (self : STM100) (rest : list byte) (e : exn),
    (length rs < length items)%nat ->
    forallb decodes rs = true ->
    rx (inst self) = concat (map on_the_wire rs) ++ rest ->
    (forall s : STM100, rx (inst s) = rest -> fst (_read s) = Raise e) ->
    isinstance_ValueError e = false ->
    exists self' : STM100,
      dict_comprehension
        (fun v => _query_float float_str (v ++ Py.format_d f ++ lit "?"))
        items self = (Raise e, self')
      /\ _films self' = _films self.
Proof.
  induction items as [|[k v] items IH];
    intros Hs rs self rest e Hlen Hd Hrx Hread He.
  - cbn [length] in Hlen. lia.
  - cbn [dict_comprehension]. unfold bind at 1.
    change (v ++ Py.format_d f ++ lit "?") with (film_command f v).
    destruct rs as [|r rs].
    + cbn [map concat app] in Hrx.
      destruct (@_query_float_read_fails float_str (film_command f v) self e
                  (Hs (k, v) (or_introl eq_refl)))
        as [s1 [E1 Hf1]]; [|exact He|].
      { intros s Hsrx. apply Hread. congruence. }
      rewrite E1. exists s1. auto.
    + cbn [forallb] in Hd. apply andb_true_iff in Hd. destruct Hd as [Hr Hd].
      cbn [map concat] in Hrx. rewrite <- app_assoc in Hrx.
      destruct (@_query_float_reply float_str r (film_command f v) self _
                  (Hs (k, v) (or_introl eq_refl)) Hr Hrx)
        as [s1 [E1 [Hrx1 Hf1]]].
      rewrite E1.
      destruct (IH (fun kv Hin => Hs kv (or_intror Hin)) rs s1 rest e)
        as [s2 [E2 Hf2]]; auto.
      { cbn [length] in Hlen. lia. }
      unfold bind at 1. rewrite E2. exists s2. split; [reflexivity|].
      congruence.
Qed.

(** The loop over the slots [l], cut short: the slots that were answered
    in full have their records in [_films], and the exception is passed
    on. *)
Lemma slots_loop_fail (float_str : str -> option number) (l : list Z) :
  (forall f, In f l -> In f (Py.range 1 10)) ->
  forall (rs : list reply) (self : STM100) (rest : list byte) (e : exn)
         (done : list film),
    (length rs < 3 * length l)%nat ->
    forallb decodes rs = true ->
    rx (inst self) = concat (map on_the_wire rs) ++ rest ->
    (forall s : STM100, rx (inst s) = rest -> fst (_read s) = Raise e) ->
    isinstance_ValueError e = false ->
    _films self = Some done ->
    exists self' : STM100,
      for_in l (fun f =>
        d <- dict_comprehension
               (fun v => _query_float float_str
                           (v ++ Py.format_d f ++ lit "?"))
               params ;;
        films_append d) self = (Raise e, self')
      /\ _films self' = Some (done ++ films_of_replies float_str rs).
Proof.
  induction l as [|f l IH];
    intros Hl rs self rest e done Hlen Hd Hrx Hread He Hdone.
  - cbn [length] in Hlen. lia.
  - assert (Hsend : forall kv, In kv params ->
                               sendable (film_command f (snd kv)))
      by (intros kv Hkv; apply film_command_sendable;
          [apply Hl; now left|exact Hkv]).
    cbn [for_in]. unfold bind at 1 2.
    destruct rs as [|r1 [|r2 [|r3 rs]]].
    1-3: match type of Hrx with
         | context [map on_the_wire ?rs0] =>
             destruct (@slot_replies_fail float_str f params Hsend rs0
                         self rest e) as [s1 [E1 Hf1]];
             [cbn; lia|exact Hd|exact Hrx|exact Hread|exact He|]
         end;
      rewrite E1; exists s1; split; [reflexivity|];
      cbn [films_of_replies]; rewrite app_nil_r; congruence.
    cbn [forallb] in Hd. rewrite !andb_true_iff in Hd.
    destruct Hd as [H1 [H2 [H3 Hd]]].
    destruct (@slot_replies float_str f params Hsend
                [r1; r2; r3] self (concat (map on_the_wire rs) ++ rest))
      as [s1 [E1 [Hrx1 Hf1]]].
    + reflexivity.
    + cbn [forallb]. now rewrite H1, H2, H3.
    + rewrite Hrx. cbn [map concat]. rewrite app_nil_r, <- !app_assoc.
      reflexivity.
    + rewrite E1. unfold films_append at 1. rewrite Hf1, Hdone.
      destruct (IH (fun g Hg => Hl g (or_intror Hg)) rs
                   (set_films (Some (done ++ [combine (map fst params)
                      (map (float_of_reply float_str) [r1; r2; r3])])) s1)
                   rest e
                   (done ++ [combine (map fst params)
                      (map (float_of_reply float_str) [r1; r2; r3])]))
        as [s2 [E2 Hf2]]; auto.
      * cbn [length] in Hlen. lia.
      * exists s2. split; [exact E2|].
        rewrite Hf2, <- app_assoc. reflexivity.
Qed.

(** X12: the film table after [films].  Whatever it held before, [_films]
    then holds a list: the 9 records that are returned when the call
    returns, fewer when it raises.  When the instrument answers fewer than
    27 queries with replies that decode and the next read raises an
    exception that is no [ValueError] (a timeout, a missing start byte, an
    empty payload), [films] raises this exception and [_films] holds the
    records of the slots that were answered in full, made of their replies
    in order. *)
Theorem films_failure_leaves_partial_table
        (float_str : str -> option number) :
  (forall self : STM100,
      exists l : list film,
        _films (snd (films float_str self)) = Some l /\
        match fst (films float_str self) with
        | Ret r => r = Some l /\ length l = 9%nat
        | Raise _ => (length l < 9)%nat
        end) /\
  (forall (self : STM100) (rs : list reply) (rest : list byte) (e : exn),
      (length rs < 27)%nat ->
      forallb decodes rs = true ->
      rx (inst self) = concat (map on_the_wire rs) ++ rest ->
      (forall s : STM100, rx (inst s) = rest -> fst (_read s) = Raise e) ->
      isinstance_ValueError e = false ->
      fst (films float_str self) = Raise e /\
      _films (snd (films float_str self))
      = Some (films_of_replies float_str rs)).
Proof.
  split.
  - intros self.
    destruct (@slots_loop_partial float_str (Py.range 1 10)
                (set_films (Some []) self) [] eq_refl) as [ds [Hf Hlen]].
    exists ds. unfold films, query_films. set (loop := for_in _ _) in *.
    unfold bind. cbn [fst snd].
    destruct (loop (set_films (Some []) self)) as [[[]|e] s1];
      cbn [fst snd] in *; auto.
  - intros self rs rest e Hlen Hd Hrx Hread He.
    destruct (@slots_loop_fail float_str (Py.range 1 10) (fun f Hf => Hf)
                rs (set_films (Some []) self) rest e [])
      as [s1 [E Hf]]; auto.
    unfold films, query_films. set (loop := for_in _ _) in *.
    unfold bind. cbn [fst snd]. rewrite E. cbn [fst snd]. auto.
Qed.

Lemma films_failure_leaves_partial_table_witness :
  fst (films float_whole
         (on_wire (concat (map on_the_wire (firstn 4 example_replies)))))
  = Raise VisaIOError /\
  _films (snd (films float_whole
                 (on_wire (concat (map on_the_wire
                                       (firstn 4 example_replies))))))
  = Some [[("density"%string, Fin (inject_Z 1));
           ("zfactor"%string, Fin (inject_Z 2));
           ("tooling"%string, NaN)]].
Proof.
  apply (proj2 (films_failure_leaves_partial_table float_whole)
               (on_wire (concat (map on_the_wire (firstn 4 example_replies))))
               (firstn 4 example_replies) [] VisaIOError).
  - cbn. lia.
  - reflexivity.
  - reflexivity.
  - apply _read_nothing.
  - reflexivity.
Defined.

Example films_on_a_silent_instrument :
  fst (films float_whole (mkSTM100 (mkResource [] []) [] None
                            (Some [[("density"%string, NaN)]])))
  = Raise VisaIOError /\
  _films (snd (films float_whole
                 (mkSTM100 (mkResource [] []) [] None
                    (Some [[("density"%string, NaN)]]))))
  = Some [].
Proof. split; reflexivity. Qed.

(** ** The density and tooling setters *)

Lemma round_half_even_bounds (a : Z) (b : positive) :
  (0 <= a)%Z ->
  (a / Zpos b <= Fmt.round_half_even a b <= a / Zpos b + 1)%Z.
Proof.
  intros Ha. unfold Fmt.round_half_even.
  repeat match goal with
         | |- context [if ?c then _ else _] => destruct c
         end; lia.
Qed.

Lemma fixed_length (p : nat) (m : N) : length (Fmt.fixed p m) = p.
Proof.
  revert m. induction p as [|p IH]; intros m; cbn [Fmt.fixed].
  - reflexivity.
  - rewrite length_app, IH. cbn [length]. lia.
Qed.

Lemma fixed_digits (p : nat) (m : N) :
  Forall (fun c => Py.isdigit c = true) (Fmt.fixed p m).
Proof.
  revert m. induction p as [|p IH]; intros m; cbn [Fmt.fixed].
  - constructor.
  - apply Forall_app. split; [apply IH|]. constructor; [|constructor].
    apply isdigit_range.
    assert (m mod 10 < 10)%N by (apply N.mod_lt; discriminate).
    generalize dependent (m mod 10)%N. intros; lia.
Qed.

Lemma format_d_fits (k : Z) (d : nat) :
  (0 <= k < 10 ^ Z.of_nat d)%Z -> (1 <= d)%nat ->
  (length (Py.format_d k) <= d)%nat /\
  Forall (fun c => Py.isdigit c = true) (Py.format_d k).
Proof.
  intros Hk Hd. destruct k as [|p|p]; [| |lia].
  - split; [cbn; lia|repeat constructor].
  - unfold Py.format_d. split.
    + apply (@dec_length _ (Npos p) [] d); [|exact Hd].
      apply N2Z.inj_lt. rewrite N2Z.inj_pow, nat_N_Z. cbn. lia.
    + apply dec_digits. constructor.
Qed.

(** A positive value below [10 ^ d - 10 ^ -prec] prints with at most [d]
    digits before the point and [prec] after it. *)
Lemma format_f_fits (a : Z) (b : positive) (prec d : nat) :
  (0 <= a)%Z ->
  (a * 10 ^ Z.of_nat (S prec)
   < (10 ^ Z.of_nat d * 10 ^ Z.of_nat (S prec) - 1) * Zpos b)%Z ->
  (1 <= d)%nat ->
  (length (Fmt.format_f (S prec) (Fin (a # b))) <= d + 2 + prec)%nat /\
  Forall (fun c => (c < 256)%N) (Fmt.format_f (S prec) (Fin (a # b))).
Proof.
  intros Ha Hlt Hd. unfold Fmt.format_f. cbn [Qnum Qden].
  set (scale := (10 ^ Z.of_nat (S prec))%Z) in *.
  assert (Hscale : (0 < scale)%Z) by (apply Z.pow_pos_nonneg; lia).
  rewrite Z.abs_eq by exact Ha.
  replace (a <? 0)%Z with false by (symmetry; apply Z.ltb_ge; exact Ha).
  set (n := Fmt.round_half_even (a * scale) b).
  assert (Hn : (0 <= n < 10 ^ Z.of_nat d * scale)%Z).
  { pose proof (@round_half_even_bounds (a * scale) b ltac:(lia)) as Hb.
    fold n in Hb.
    assert (0 <= a * scale / Zpos b)%Z by (apply Z.div_pos; lia).
    assert (a * scale / Zpos b < 10 ^ Z.of_nat d * scale - 1)%Z
      by (apply Z.div_lt_upper_bound; lia).
    lia. }
  assert (Hint : (0 <= n / scale < 10 ^ Z.of_nat d)%Z).
  { split; [apply Z.div_pos; lia|apply Z.div_lt_upper_bound; lia]. }
  destruct (format_d_fits Hint Hd) as [Hlen Hdig]. cbn [app]. split.
  - rewrite length_app. cbn [length]. rewrite fixed_length. lia.
  - apply Forall_impl with (P := fun c => Py.isdigit c = true \/ c = 46%N).
    + intros c [Hc| ->]; [apply isdigit_range in Hc|]; lia.
    + apply Forall_app. split.
      * eapply Forall_impl; [|exact Hdig]. cbv beta. auto.
      * constructor; [now right|].
        eapply Forall_impl; [|apply fixed_digits]. cbv beta. auto.
Qed.

Lemma setter_writes (cmd : str) (self : STM100) :
  sendable cmd ->
  tx (inst (snd ((query cmd ;;; ret tt) self)))
  = tx (inst self) ++ [frame cmd].
Proof.
  intros Hs. pose proof (query_tx self Hs) as Htx. unfold bind, ret.
  destruct (query cmd self) as [[ans|e] s']; exact Htx.
Qed.

(** X13: the density setter.  A value that is not in [0.5, 99.99] (the
    bounds being the floats these literals denote), an infinity or [nan]
    raises [AssertionError], and the session is as it was: nothing is
    written or read.  For a value in range the command [E=] followed by the
    value rounded to three decimals has at most 8 characters, so [_send]
    never refuses it, and its frame is the one write of the call. *)
Theorem density_setter_checks_range :
  (forall (value : number) (self : STM100),
      ~ in_density_range value ->
      density_setter value self = (Raise (AssertionError []), self)) /\
  (forall (value : number) (self : STM100),
      in_density_range value ->
      (len (lit "E=" ++ Fmt.format_f 3 value) <= 8)%N /\
      sendable (lit "E=" ++ Fmt.format_f 3 value) /\
      tx (inst (snd (density_setter value self)))
      = tx (inst self) ++ [frame (lit "E=" ++ Fmt.format_f 3 value)]).
Proof.
  assert (Hassert : forall value,
             Fmt.ge value Fmt.float_0_5 && Fmt.le value Fmt.float_99_99 = true
             <-> in_density_range value).
  { intros [q| | |]; cbn [Fmt.ge Fmt.le in_density_range andb];
      try (split; [discriminate|tauto]).
    rewrite andb_true_iff, !Qle_bool_iff. reflexivity. }
  split.
  - intros value self Hr. unfold density_setter.
    destruct (Fmt.ge value Fmt.float_0_5 && Fmt.le value Fmt.float_99_99)
      eqn:Ha; [|reflexivity].
    exfalso. now apply Hr, Hassert.
  - intros value self Hr. pose proof (proj2 (Hassert value) Hr) as Ha.
    destruct value as [[a b]| | |]; try contradiction.
    destruct Hr as [H0 H1].
    unfold Qle, Fmt.float_0_5, Fmt.float_99_99 in H0, H1.
    cbn [Qnum Qden] in H0, H1.
    destruct (@format_f_fits a b 2 2) as [Hlen Hbytes]; [lia| |lia|].
    { change (10 ^ Z.of_nat 3)%Z with 1000%Z.
      change (10 ^ Z.of_nat 2)%Z with 100%Z. lia. }
    assert (Hs : sendable (lit "E=" ++ Fmt.format_f 3 (Fin (a # b)))).
    { split.
      - unfold len. rewrite length_app. cbn [lit length map
          list_ascii_of_string]. lia.
      - apply Forall_app. split; [repeat constructor|exact Hbytes]. }
    split; [|split; [exact Hs|]].
    + unfold len. rewrite length_app.
      cbn [lit length map list_ascii_of_string]. lia.
    + unfold density_setter. rewrite Ha. unfold assert, bind at 1, ret at 1.
      apply (setter_writes self Hs).
Qed.

Lemma density_setter_checks_range_witness :
  density_setter (Fin (4 # 10)) (on_wire [x02; x01; x41; x41])
  = (Raise (AssertionError []), on_wire [x02; x01; x41; x41]) /\
  (len (lit "E=" ++ Fmt.format_f 3 (Fin (25 # 2))) <= 8)%N /\
  sendable (lit "E=" ++ Fmt.format_f 3 (Fin (25 # 2))) /\
  tx (inst (snd (density_setter (Fin (25 # 2)) (on_wire [x02; x01; x41; x41]))))
  = tx (inst (on_wire [x02; x01; x41; x41]))
    ++ [frame (lit "E=" ++ Fmt.format_f 3 (Fin (25 # 2)))].
Proof.
  split.
  - apply (proj1 density_setter_checks_range). intros [H _]. now apply H.
  - apply (proj2 density_setter_checks_range). split; discriminate.
Defined.

Example density_12_5 :
  tx (inst (snd (density_setter (Fin (25 # 2)) (on_wire []))))
  = [frame (lit "E=12.500")].
Proof. reflexivity. Qed.

(** X14: the tooling setter.  A value that is not in [10, 399], an infinity
    or [nan] raises [AssertionError] and the session is as it was.  For a
    value in range the command [J=] followed by the value rounded to one
    decimal has at most 7 characters, so [_send] never refuses it, and its
    frame is the one write of the call. *)
Theorem tooling_setter_checks_range :
  (forall (value : number) (self : STM100),
      ~ in_tooling_range value ->
      tooling_setter value self = (Raise (AssertionError []), self)) /\
  (forall (value : number) (self : STM100),
      in_tooling_range value ->
      (len (lit "J=" ++ Fmt.format_f 1 value) <= 7)%N /\
      sendable (lit "J=" ++ Fmt.format_f 1 value) /\
      tx (inst (snd (tooling_setter value self)))
      = tx (inst self) ++ [frame (lit "J=" ++ Fmt.format_f 1 value)]).
Proof.
  assert (Hassert : forall value,
             Py.ge value 10 && Py.le value 399 = true
             <-> in_tooling_range value).
  { intros [q| | |]; cbn [Py.ge Py.le in_tooling_range andb];
      try (split; [discriminate|tauto]).
    rewrite andb_true_iff, !Qle_bool_iff. reflexivity. }
  split.
  - intros value self Hr. unfold tooling_setter.
    destruct (Py.ge value 10 && Py.le value 399) eqn:Ha; [|reflexivity].
    exfalso. now apply Hr, Hassert.
  - intros value self Hr. pose proof (proj2 (Hassert value) Hr) as Ha.
    destruct value as [[a b]| | |]; try contradiction.
    destruct Hr as [H0 H1]. unfold Qle in H0, H1.
    cbn [Qnum Qden inject_Z] in H0, H1.
    destruct (@format_f_fits a b 0 3) as [Hlen Hbytes]; [lia| |lia|].
    { change (10 ^ Z.of_nat 1)%Z with 10%Z.
      change (10 ^ Z.of_nat 3)%Z with 1000%Z. lia. }
    assert (Hs : sendable (lit "J=" ++ Fmt.format_f 1 (Fin (a # b)))).
    { split.
      - unfold len. rewrite length_app. cbn [lit length map
          list_ascii_of_string]. lia.
      - apply Forall_app. split; [repeat constructor|exact Hbytes]. }
    split; [|split; [exact Hs|]].
    + unfold len. rewrite length_app.
      cbn [lit length map list_ascii_of_string]. lia.
    + unfold tooling_setter. rewrite Ha. unfold assert, bind at 1, ret at 1.
      apply (setter_writes self Hs).
Qed.

Lemma tooling_setter_checks_range_witness :
  tooling_setter (Fin (inject_Z 400)) (on_wire [x02; x01; x41; x41])
  = (Raise (AssertionError []), on_wire [x02; x01; x41; x41]) /\
  (len (lit "J=" ++ Fmt.format_f 1 (Fin (inject_Z 399))) <= 7)%N /\
  sendable (lit "J=" ++ Fmt.format_f 1 (Fin (inject_Z 399))) /\
  tx (inst (snd (tooling_setter (Fin (inject_Z 399))
                   (on_wire [x02; x01; x41; x41]))))
  = tx (inst (on_wire [x02; x01; x41; x41]))
    ++ [frame (lit "J=" ++ Fmt.format_f 1 (Fin (inject_Z 399)))].
Proof.
  split.
  - apply (proj1 tooling_setter_checks_range). intros [_ H]. now apply H.
  - apply (proj2 tooling_setter_checks_range). split; discriminate.
Defined.

(** ** The digits of the setpoint command *)

(** X15: the setpoint command reads back as the value without its fraction.
    For a value [q] in [0, 9999999] the setter writes the wire frame of [G=]
    followed by decimal digits without a leading zero; the integer [k]
    these digits stand for is what [int] reads from them, and
    [k <= q < k + 1]: it is the value truncated towards zero. *)
Theorem setpoint_command_reads_back
        (int_unicode : str -> result Z) (q : Q) (self : STM100) :
  in_setpoint_range (Fin q) ->
  exists (digits : str) (k : Z) (fr : list byte),
    tx (inst (snd (setpoint_setter (Fin q) self))) = tx (inst self) ++ [fr] /\
    is_frame (lit "G=" ++ digits) fr /\
    no_leading_zero digits = true /\
    Forall (fun c => Py.isdigit c = true) digits /\
    decimal digits = k /\
    int_str int_unicode digits = Ret k /\
    inject_Z k <= q /\ q < inject_Z (k + 1).
Proof.
  intros Hr. pose proof (proj2 (setpoint_assert (Fin q)) Hr) as Ha.
  pose proof Hr as [H0 H1].
  pose proof (int_number_setpoint H0 H1) as Hk.
  destruct (trunc_bounds H0) as [Hlo Hhi].
  set (k := Z.quot (Qnum q) (Zpos (Qden q))) in *.
  destruct (format_d_setpoint Hk) as [_ Hdig].
  destruct (@format_d_decimal k ltac:(lia)) as [Hne Hv].
  exists (Py.format_d k), k, (frame (lit "G=" ++ Py.format_d k)).
  split; [|split; [|split; [|split; [|split; [|split]]]]].
  - unfold setpoint_setter. rewrite Ha.
    unfold assert, bind at 1, ret at 1, bind at 1, lift at 1.
    cbn [Py.int_number]. fold k.
    apply (setter_writes self (setpoint_command_sendable Hk)).
  - apply frame_is_frame, setpoint_command_sendable, Hk.
  - apply format_d_canonical; lia.
  - exact Hdig.
  - exact Hv.
  - rewrite (int_str_digits int_unicode Hne Hdig). now rewrite Hv.
  - auto.
Qed.

Lemma setpoint_command_reads_back_witness :
  exists (digits : str) (k : Z) (fr : list byte),
    tx (inst (snd (setpoint_setter (Fin (50007 # 10))
                     (on_wire [x02; x01; x41; x41]))))
    = tx (inst (on_wire [x02; x01; x41; x41])) ++ [fr] /\
    is_frame (lit "G=" ++ digits) fr /\
    no_leading_zero digits = true /\
    Forall (fun c => Py.isdigit c = true) digits /\
    decimal digits = k /\
    int_str (fun _ => Raise TypeError) digits = Ret k /\
    inject_Z k <= 50007 # 10 /\ 50007 # 10 < inject_Z (k + 1).
Proof.
  apply (@setpoint_command_reads_back (fun _ => Raise TypeError)
           (50007 # 10) (on_wire [x02; x01; x41; x41])).
  split; discriminate.
Defined.

(** ** Replies that are cut short or corrupted *)

(** X16: a reply that is cut short ends in the timeout of the transport.
    With no byte at all, with the start byte alone, with fewer payload bytes
    than the length byte announces, or with a text payload but no checksum
    byte, [query] raises [VisaIOError] after having written the frame of
    its command, and [statuscode] keeps its value. *)
Theorem truncated_reply_times_out
        (msg : str) (self : STM100) (n : byte) (part : list byte) :
  sendable msg ->
  rx (inst self) = [] \/
  rx (inst self) = [x02] \/
  (rx (inst self) = x02 :: n :: part /\
   (N.of_nat (length part) < Byte.to_N n)%N) \/
  (rx (inst self) = x02 :: n :: part /\
   N.of_nat (length part) = Byte.to_N n /\ Py.utf8 part <> None) ->
  fst (query msg self) = Raise VisaIOError /\
  tx (inst (snd (query msg self))) = tx (inst self) ++ [frame msg] /\
  statuscode (snd (query msg self)) = statuscode self.
Proof.
  intros Hs Hrx.
  assert (Hread : fst (_read (sent msg self)) = Raise VisaIOError).
  { assert (Hrx' : rx (inst (sent msg self)) = rx (inst self))
      by reflexivity.
    rewrite <- Hrx' in Hrx. clear Hrx'.
    generalize dependent (sent msg self). clear self. intros self Hrx.
    unfold _read, bind at 1.
    destruct Hrx as [Hrx|[Hrx|[[Hrx Hlen]|[Hrx [Hlen Hp]]]]].
    - now rewrite (read_bytes_empty self Hrx) by discriminate.
    - rewrite (read_byte _ Hrx). unfold bind at 1, lift at 1. cbn [Py.decode
        Py.utf8 N.ltb Byte.to_N]. cbn -[Visa.read_bytes].
      unfold bind at 1.
      now rewrite read_bytes_empty by (reflexivity || discriminate).
    - rewrite (read_byte _ Hrx). cbn -[Visa.read_bytes].
      unfold bind at 1.
      rewrite (@read_byte n part) by reflexivity.
      unfold bind at 1, lift at 1. cbn [Py.ord_bytes]. unfold bind at 1.
      unfold Visa.read_bytes at 1. cbn [inst rx set_inst].
      replace (N.to_nat (Byte.to_N n) <=? length part)%nat with false
        by (symmetry; apply Nat.leb_gt; lia).
      reflexivity.
    - rewrite (read_byte _ Hrx). cbn -[Visa.read_bytes].
      unfold bind at 1.
      rewrite (@read_byte n part) by reflexivity.
      unfold bind at 1, lift at 1. cbn [Py.ord_bytes]. unfold bind at 1.
      rewrite (@read_bytes_app part []);
        [|cbn [inst rx set_inst]; now rewrite app_nil_r|now symmetry].
      unfold bind at 1, lift at 1, Py.decode.
      destruct (Py.utf8 part) as [text|]; [|congruence].
      unfold bind at 1.
      now rewrite read_bytes_empty by (reflexivity || discriminate). }
  assert (E : fst (query msg self) = Raise VisaIOError).
  { unfold query, bind at 1. rewrite (_send_ok self Hs). unfold bind at 1.
    destruct (_read (sent msg self)) as [[[st ans]|e] s2];
      cbn [fst] in *; congruence. }
  split; [exact E|]. split; [apply (query_tx self Hs)|].
  unfold query, bind. rewrite (_send_ok self Hs).
  pose proof (_read_keeps_statuscode (sent msg self)) as Hk.
  destruct (_read (sent msg self)) as [[[st ans]|e] s2];
    cbn [fst snd] in *; [discriminate|exact Hk].
Qed.

Lemma truncated_reply_times_out_witness :
  fst (query (lit "S") (on_wire [x02; x05; x41; x31])) = Raise VisaIOError /\
  tx (inst (snd (query (lit "S") (on_wire [x02; x05; x41; x31]))))
  = tx (inst (on_wire [x02; x05; x41; x31])) ++ [frame (lit "S")] /\
  statuscode (snd (query (lit "S") (on_wire [x02; x05; x41; x31])))
  = statuscode (on_wire [x02; x05; x41; x31]).
Proof.
  apply (@truncated_reply_times_out (lit "S") (on_wire [x02; x05; x41; x31])
           x05 [x41; x31]).
  - split; [discriminate|repeat constructor].
  - right. right. left. split; reflexivity.
Defined.

Lemma mod_256_add_cancel (t c c' : N) :
  (c < 256)%N -> (c' < 256)%N ->
  ((t + c) mod 256 = (t + c') mod 256)%N -> c = c'.
Proof.
  intros Hc Hc' H.
  pose proof (N.div_mod (t + c) 256 ltac:(discriminate)) as H1.
  pose proof (N.div_mod (t + c') 256 ltac:(discriminate)) as H2.
  assert (H3 : ((t + c) mod 256 < 256)%N) by (apply N.mod_lt; discriminate).
  rewrite H in H1, H3.
  generalize dependent ((t + c') mod 256)%N.
  generalize dependent ((t + c) / 256)%N.
  generalize dependent ((t + c') / 256)%N. intros; lia.
Qed.

(** X17: the checksum tells a single wrong character.  Two texts that
    differ in exactly one place, in characters that are bytes, have
    different checksums; so when one payload character of a reply is
    replaced, and the checksum byte is that of the text as sent, [_read]
    logs "Checksum mismatch" (and still returns the reply as received). *)
Theorem single_character_error_is_logged :
  (forall (a b : str) (c c' : N),
      (c < 256)%N -> (c' < 256)%N -> c <> c' ->
      _calc_checksum (a ++ c :: b) <> _calc_checksum (a ++ c' :: b)) /\
  (forall (self : STM100) (n chk : byte) (payload rest : list byte)
          (status : N) (a b : str) (c c' : N),
      rx (inst self) = x02 :: n :: payload ++ chk :: rest ->
      Byte.to_N n = N.of_nat (length payload) ->
      Py.utf8 payload = Some (status :: a ++ c' :: b) ->
      Byte.to_N chk = _calc_checksum (status :: a ++ c :: b) ->
      (c < 256)%N -> (c' < 256)%N -> c <> c' ->
      fst (_read self) = Ret ([status], a ++ c' :: b) /\
      log (snd (_read self)) = log self ++ [error (lit "Checksum mismatch")]).
Proof.
  assert (Hdiff : forall (a b : str) (c c' : N),
      (c < 256)%N -> (c' < 256)%N -> c <> c' ->
      _calc_checksum (a ++ c :: b) <> _calc_checksum (a ++ c' :: b)).
  { intros a b c c' Hc Hc' Hne H. apply Hne.
    unfold _calc_checksum in H. rewrite !fold_left_app in H.
    cbn [fold_left] in H.
    rewrite (fold_add_shift b (fold_left N.add a 0 + c)%N) in H.
    rewrite (fold_add_shift b (fold_left N.add a 0 + c')%N) in H.
    apply (@mod_256_add_cancel
             (fold_left N.add a 0 + fold_left N.add b 0)%N c c' Hc Hc').
    etransitivity; [|etransitivity; [exact H|]]; f_equal; lia. }
  split; [exact Hdiff|].
  intros self n chk payload rest status a b c c' Hrx Hn Hp Hchk Hc Hc' Hne.
  rewrite (@_read_frame self n chk payload rest _ Hrx Hn Hp).
  unfold consumed.
  replace (Byte.to_N chk =? _calc_checksum (status :: a ++ c' :: b))%N
    with false; [split; reflexivity|].
  symmetry. apply N.eqb_neq. rewrite Hchk.
  apply (Hdiff (status :: a) b c c' Hc Hc' Hne).
Qed.

Lemma single_character_error_is_logged_witness :
  fst (_read (on_wire [x02; x03; x41; x31; x37; xa4])) = Ret (lit "A", lit "17")
  /\ log (snd (_read (on_wire [x02; x03; x41; x31; x37; xa4])))
     = log (on_wire [x02; x03; x41; x31; x37; xa4])
       ++ [error (lit "Checksum mismatch")].
Proof.
  apply (proj2 single_character_error_is_logged
               (on_wire [x02; x03; x41; x31; x37; xa4]) x03 xa4
               [x41; x31; x37] [] 65%N (lit "1") [] 50%N 55%N);
    try reflexivity.
  discriminate.
Defined.
